(** * Rubric scoring engine, submission tracker and judge client of AIGYM

    Shallow embedding of
    - [src/simulation/judge.py]        (Judge.evaluate_solution, _evaluate_solution,
                                        _score_rubric_item, _generate_feedback,
                                        _load_task_specs, _get_language_for_category),
    - [src/solution_runner_api.py]     (active_solutions, run_solution,
                                        execute_solution, solution_status),
    - [src/simulation/judge_client.py] (SolutionRunnerClient.run_solution,
                                        _poll_solution_status, get_solution_result),
    - [src/api/solutions.py]           (submit_solution).

    Python floats are modelled as exact rationals [Q]; Python dicts as stdpp
    [gmap string _]; exceptions as the [inl] side of a sum (an error monad).
    Strings are ASCII strings; [str.lower] is modelled on ASCII letters. *)

From Stdlib Require Import QArith ZArith String Ascii List Bool Lqa.
From stdpp Require Import base gmap strings list pretty.

Open Scope string_scope.
Open Scope Q_scope.

(** ** Exceptions: a small error monad *)

Definition res (A : Type) : Type := (string + A)%type.

Definition ok {A : Type} (a : A) : res A := inr a.
Definition raise {A : Type} (e : string) : res A := inl e.

Definition bind_res {A B : Type} (m : res A) (k : A -> res B) : res B :=
  match m with
  | inl e => inl e
  | inr a => k a
  end.

Notation "'let*' x ':=' m 'in' k" := (bind_res m (fun x => k))
  (at level 200, x name, m at level 100, k at level 200).

(** ** Strings: [str.lower] and the [in] operator on strings *)

Definition ascii_lower (c : ascii) : ascii :=
  let n := nat_of_ascii c in
  if (65 <=? n)%nat && (n <=? 90)%nat then ascii_of_nat (n + 32) else c.

Fixpoint lower (s : string) : string :=
  match s with
  | EmptyString => EmptyString
  | String c s' => String (ascii_lower c) (lower s')
  end.

Fixpoint prefixb (p s : string) : bool :=
  match p, s with
  | EmptyString, _ => true
  | String c p', String d s' => Ascii.eqb c d && prefixb p' s'
  | String _ _, EmptyString => false
  end.

(** [contains needle hay] is Python's [needle in hay]. *)
Fixpoint contains (needle hay : string) : bool :=
  prefixb needle hay ||
  match hay with
  | EmptyString => false
  | String _ hay' => contains needle hay'
  end.

(** ** Rational comparisons (Python float comparisons) *)

Definition qltb (a b : Q) : bool := negb (Qle_bool b a).
Definition qgeb (a b : Q) : bool := Qle_bool b a.

(** ** Data model of judge.py *)

Record RubricItem := mkRubricItem {
  description : string;
  weight : Q
}.

Record TaskSpec := mkTaskSpec {
  task_id : string;
  category : string;
  grade : string;
  prompt : string;
  version : string;
  rubric_version : string;
  time_limit_sec : Z;
  memory_mb : Z;
  metric : string;
  rubric : list RubricItem
}.

(** Values of the [Dict[str, Any]] metrics map. *)
Inductive mval :=
| MInt (z : Z)
| MFloat (q : Q)
| MStr (s : string).

(** One feedback dict [{source, rating, rationale, rubric_section}]. *)
Record Feedback := mkFeedback {
  fb_source : string;
  fb_rating : Q;
  fb_rationale : string;
  fb_rubric_section : string
}.

Record JudgeResult := mkJudgeResult {
  jr_episode_id : string;
  jr_task_id : string;
  jr_success : bool;
  jr_score : Q;
  jr_metrics : gmap string mval;
  jr_feedback : list Feedback
}.

(** The dict returned by the solution runner ([solution_result]); an absent
    key is [None]. *)
Record SolutionResult := mkSolutionResult {
  sr_status : option string;
  sr_exit_code : option Z;
  sr_logs : option string;
  sr_execution_time_ms : option Q;
  sr_error : option string
}.

(** [metrics.get(spec.metric, float('inf'))]: the runtime read by the
    performance scoring; comparing a string with [100] raises [TypeError]. *)
Inductive runtime := RFin (q : Q) | RInf.

Definition get_runtime (metrics : gmap string mval) (key : string) : res runtime :=
  match metrics !! key with
  | None => ok RInf
  | Some (MInt z) => ok (RFin (inject_Z z))
  | Some (MFloat q) => ok (RFin q)
  | Some (MStr _) =>
      raise "'<' not supported between instances of 'str' and 'int'"
  end.

(** The runtime buckets of [_score_rubric_item]. *)
Definition performance_score (runtime_ms : runtime) : Q :=
  match runtime_ms with
  | RInf => 1 # 10
  | RFin r =>
      if qltb r 100 then 1
      else if qltb r 500 then 7 # 10
      else if qltb r 1000 then 4 # 10
      else 1 # 10
  end.

(** [Judge._score_rubric_item] *)
Definition score_rubric_item (item : RubricItem) (logs : string) (exit_code : Z)
    (metrics : gmap string mval) (spec : TaskSpec) : res Q :=
  let description := lower (description item) in
  if contains "correct" description || contains "output" description then
    if negb (Z.eqb exit_code 0) then ok 0
    else ok (if contains "sorted" logs then 1 else 0)
  else if contains "complexity" description || contains "performance" description then
    let* runtime_ms := get_runtime metrics (metric spec) in
    ok (performance_score runtime_ms)
  else if contains "style" description || contains "pep8" description then
    ok (if negb (contains "style error" (lower logs)) then 1 else 1 # 2)
  else ok (1 # 2).

(** [Judge._generate_feedback] *)
Definition generate_feedback (item : RubricItem) (score : Q) : string :=
  if qltb (8 # 10) score then "Excellent work on: " ++ description item
  else if qltb (6 # 10) score then
    "Good job on: " ++ description item ++ ", but room for improvement"
  else if qltb (3 # 10) score then "Needs work on: " ++ description item
  else "Failed to meet criteria: " ++ description item.

(** The [for item in spec.rubric] loop of [_evaluate_solution], with its
    accumulators [total_score], [total_weight] and [feedback]. *)
Fixpoint rubric_loop (spec : TaskSpec) (logs : string) (exit_code : Z)
    (metrics : gmap string mval) (items : list RubricItem)
    (total_score total_weight : Q) (feedback : list Feedback)
    : res (Q * Q * list Feedback) :=
  match items with
  | [] => ok (total_score, total_weight, feedback)
  | item :: rest =>
      let* item_score := score_rubric_item item logs exit_code metrics spec in
      rubric_loop spec logs exit_code metrics rest
        (total_score + item_score * weight item)
        (total_weight + weight item)
        (app feedback [mkFeedback "judge" item_score
                        (generate_feedback item item_score) (description item)])
  end.

(** [Judge._evaluate_solution]: returns [(success, final_score, feedback)]. *)
Definition evaluate_rubric (spec : TaskSpec) (logs : string) (exit_code : Z)
    (metrics : gmap string mval) : res (bool * Q * list Feedback) :=
  let* acc := rubric_loop spec logs exit_code metrics (rubric spec) 0 0 [] in
  let '(total_score, total_weight, feedback) := acc in
  let final_score := if qltb 0 total_weight then total_score / total_weight else 0 in
  let success := qgeb final_score (6 # 10) in
  ok (success, final_score, feedback).

(** [f"Execution error: {error_message}"] result of [Judge.evaluate_solution]. *)
Definition error_result (episode_id task_id error_message : string) : JudgeResult :=
  mkJudgeResult episode_id task_id false 0
    (<["error" := MStr error_message]> ∅)
    [mkFeedback "judge" 0 ("Execution error: " ++ error_message) "execution"].

(** The body of the [try] block of [Judge.evaluate_solution], from the
    moment the solution runner has been asked to run the code.
    [solution_result] is what [get_solution_result] returned ([None] when it
    returned [None]; a non-empty dict is [Some]); [elapsed_ms] is [(time.time() - start_time) * 1000].
    [_store_results] catches all of its exceptions and does not change the
    result, so it is left out. *)
Definition outcome_exit_code (sr : SolutionResult) : Z :=
  default (-1)%Z (sr_exit_code sr).

Definition outcome_logs (sr : SolutionResult) : string :=
  default "" (sr_logs sr).

(** [metrics['exit_code'] = exit_code; metrics[spec.metric] = execution_time] *)
Definition outcome_metrics (spec : TaskSpec) (sr : SolutionResult) (elapsed_ms : Q)
    : gmap string mval :=
  let metrics0 : gmap string mval := <["exit_code" := MInt (outcome_exit_code sr)]> ∅ in
  let execution_time := default elapsed_ms (sr_execution_time_ms sr) in
  <[metric spec := MFloat execution_time]> metrics0.

Definition evaluate_try_body (spec : TaskSpec) (episode_id task_id : string)
    (solution_result : option SolutionResult) (elapsed_ms : Q) : res JudgeResult :=
  match solution_result with
  | None => raise "Failed to get solution results"
  | Some sr =>
      let exit_code := outcome_exit_code sr in
      let logs := outcome_logs sr in
      let metrics := outcome_metrics spec sr elapsed_ms in
      if bool_decide (sr_status sr = Some "error") || bool_decide (sr_status sr = Some "timeout")
      then
        let error_message := default "Unknown error" (sr_error sr) in
        ok (error_result episode_id task_id error_message)
      else
        let* r := evaluate_rubric spec logs exit_code metrics in
        let '(success, score, feedback) := r in
        ok (mkJudgeResult episode_id task_id success score metrics feedback)
  end.

(** [Judge.evaluate_solution]: [ValueError] when the task id is unknown;
    every exception raised inside the [try] block becomes an error result. *)
Definition evaluate_solution (task_specs : gmap string TaskSpec)
    (episode_id task_id : string) (solution_result : option SolutionResult)
    (elapsed_ms : Q) : res JudgeResult :=
  match task_specs !! task_id with
  | None => raise ("Task specification not found for task_id: " ++ task_id)
  | Some spec =>
      match evaluate_try_body spec episode_id task_id solution_result elapsed_ms with
      | inl e => ok (error_result episode_id task_id e)
      | inr r => ok r
      end
  end.

(** The weighted mean [Σ(item_score_i × weight_i) / Σ(weight_i)] over pairs
    [(item_score_i, weight_i)]. *)
Definition weighted_mean (sw : list (Q * Q)) : Q :=
  fold_right (fun p acc => fst p * snd p + acc) 0 sw /
  fold_right (fun p acc => snd p + acc) 0 sw.

Definition sample_spec : TaskSpec :=
  mkTaskSpec "sorting_001" "coding" "easy" "Sort a list" "v1" "v1.0" 10 128
    "runtime_ms"
    [mkRubricItem "Correct output" (6 # 10);
     mkRubricItem "Performance" (4 # 10)].

Definition sample_specs : gmap string TaskSpec := <["sorting_001" := sample_spec]> ∅.

Definition completed (exit_code : Z) (logs : string) (ms : Q) : SolutionResult :=
  mkSolutionResult (Some "completed") (Some exit_code) (Some logs) (Some ms) None.


(** Rubrics whose aggregate is exactly [0.6] and [0.5999]. *)
Definition spec_with_rubric (rb : list RubricItem) : TaskSpec :=
  mkTaskSpec "t" "coding" "easy" "p" "v1" "v1.0" 10 128 "runtime_ms" rb.

Definition rubric_0_6 : list RubricItem :=
  [mkRubricItem "Correct output" (1 # 5); mkRubricItem "Documentation" (4 # 5)].

Definition rubric_0_5999 : list RubricItem :=
  [mkRubricItem "Correct output" 999; mkRubricItem "Documentation" 4001].

(** The routing of [_score_rubric_item] to its performance branch: the
    lowered description mentions "complexity" or "performance" but neither
    "correct" nor "output". *)
Definition performance_strategy (d : string) : bool :=
  negb (contains "correct" (lower d) || contains "output" (lower d)) &&
  (contains "complexity" (lower d) || contains "performance" (lower d)).

(** [Σ weight_i] over a rubric. *)
Definition rubric_weight (rb : list RubricItem) : Q :=
  fold_right (fun it acc => weight it + acc) 0 rb.

(** ** Data model of solution_runner_api.py *)

Record SolutionRequest := mkSolutionRequest {
  req_code : string;
  req_language : string;
  req_memory_limit_mb : Z;
  req_time_limit_sec : Z;
  req_solution_id : string
}.

(** One value of [active_solutions]: the dict created by [run_solution] and
    grown by the [update] calls of [execute_solution]. *)
Record Solution := mkSolution {
  sol_status : string;
  sol_start_time : Q;
  sol_request : SolutionRequest;
  sol_exit_code : option Z;
  sol_logs : option string;
  sol_execution_time_ms : option Q;
  sol_error : option string
}.

(** [solution["status"] in ["completed", "error", "timeout"]] *)
Definition is_terminal (status : string) : bool :=
  bool_decide (status = "completed") || bool_decide (status = "error") ||
  bool_decide (status = "timeout").

(** The dict stored by [run_solution]. *)
Definition fresh_solution (request : SolutionRequest) (now : Q) : Solution :=
  mkSolution "running" now request None None None None.

(** [.update({"status": "error", "error": str(e)})] *)
Definition set_error (msg : string) (s : Solution) : Solution :=
  mkSolution "error" (sol_start_time s) (sol_request s) (sol_exit_code s)
    (sol_logs s) (sol_execution_time_ms s) (Some msg).

(** [.update({"status": "completed", "exit_code", "logs", "execution_time_ms"})] *)
Definition set_completed (exit_code : Z) (logs : string) (ms : Q) (s : Solution) : Solution :=
  mkSolution "completed" (sol_start_time s) (sol_request s) (Some exit_code)
    (Some logs) (Some ms) (sol_error s).

(** The reply of [POST /solutions]: [{"status": "accepted", "solution_id": id}].
    Its [except] branch (HTTP 500) is unreachable: the body raises nothing. *)
Record SubmitResponse := mkSubmitResponse {
  resp_status : string;
  resp_solution_id : string
}.

(** The event loop: the [active_solutions] dict and the tasks created by
    [asyncio.create_task] that have not run yet (each names its id). *)
Record Runner := mkRunner {
  active_solutions : gmap string Solution;
  pending : list string
}.

(** [run_solution]: store the request (overwriting any record under the id),
    schedule [execute_solution], reply [accepted]. *)
Definition run_solution (st : Runner) (request : SolutionRequest) (now : Q)
    : Runner * SubmitResponse :=
  (mkRunner (<[req_solution_id request := fresh_solution request now]> (active_solutions st))
            (app (pending st) [req_solution_id request]),
   mkSubmitResponse "accepted" (req_solution_id request)).

(** What the Docker daemon does during one [execute_solution] run. *)
Inductive WaitOutcome :=
| WaitExited (status_code : Z)      (** [container.wait] returns [{"StatusCode": c}] *)
| WaitRaised (msg : string).        (** [container.wait] raises (its timeout included) *)

Inductive LogsOutcome :=
| LogsOk (logs : string)
| LogsRaised (msg : string).

Inductive DockerRun :=
| RunRaised (msg : string)          (** [containers.run] raises *)
| RunStarted (w : WaitOutcome) (l : LogsOutcome) (now : Q).
                                    (** [now]: [time.time()] at the update *)

(** The Docker calls (whether they return or raise) and the store writes of
    one run, in order. *)
Inductive Effect :=
| ECreate | EWait | ELogs | EWrite (status : string) | ERemove.

(** [execute_solution].  It contains no [await]: the blocking Docker calls run
    inside the event loop, so one run is atomic for the other coroutines.
    When the id is absent both lookups raise [KeyError] and the task dies
    without writing. *)
Definition execute_solution (solution_id : string) (d : DockerRun)
    (store : gmap string Solution) : gmap string Solution * list Effect :=
  match store !! solution_id with
  | None => (store, [])
  | Some solution =>
      match d with
      | RunRaised msg =>
          (<[solution_id := set_error msg solution]> store, [ECreate; EWrite "error"])
      | RunStarted w l now =>
          let '(store', effs) :=
            match w with
            | WaitRaised msg =>
                (<[solution_id := set_error msg solution]> store, [EWait; EWrite "error"])
            | WaitExited code =>
                match l with
                | LogsRaised msg =>
                    (<[solution_id := set_error msg solution]> store,
                     [EWait; ELogs; EWrite "error"])
                | LogsOk logs =>
                    (<[solution_id := set_completed code logs
                                        ((now - sol_start_time solution) * 1000) solution]> store,
                     [EWait; ELogs; EWrite "completed"])
                end
            end in
          (store', ECreate :: app effs [ERemove])
      end
  end.

(** One step of the event loop: a submission, or one pending
    [execute_solution] task (any of them) running to its end. *)
Inductive runner_step : Runner -> Runner -> Prop :=
| step_submit st request now :
    runner_step st (fst (run_solution st request now))
| step_execute st i solution_id d :
    pending st !! i = Some solution_id ->
    runner_step st
      (mkRunner (fst (execute_solution solution_id d (active_solutions st)))
                (delete i (pending st))).

Definition req_a (code : string) : SolutionRequest :=
  mkSolutionRequest code "python" 128 10 "a".

(** Two submissions of id ["a"], then both scheduled tasks run. *)
Definition trace_s0 : Runner := mkRunner ∅ [].
Definition trace_s1 : Runner := fst (run_solution trace_s0 (req_a "print(1)") 0).
Definition trace_s2 : Runner := fst (run_solution trace_s1 (req_a "print(2)") 1).
Definition trace_s3 : Runner :=
  mkRunner (fst (execute_solution "a" (RunStarted (WaitExited 0) (LogsOk "1") 2)
                   (active_solutions trace_s2)))
           (delete 0%nat (pending trace_s2)).
Definition trace_s4 : Runner :=
  mkRunner (fst (execute_solution "a" (RunStarted (WaitRaised "Read timed out.") (LogsOk "") 13)
                   (active_solutions trace_s3)))
           (delete 0%nat (pending trace_s3)).

(** ** The websocket [/ws/solutions/{solution_id}] ([solution_status]) *)

Inductive WsMessage :=
| WsSnapshot (s : Solution)      (** [send_json(solution)] *)
| WsNotFound.                    (** [send_json({"status": "not_found"})] *)

Inductive WsEvent :=
| WsSend (m : WsMessage)
| WsSleep (seconds : Q).         (** [await asyncio.sleep(0.1)] *)

(** The [while True] loop.  [obs] lists what [active_solutions.get(id)]
    returns at each successive check (other coroutines run at each
    [await]).  The boolean is [true] when the handler has returned (the
    stream is closed); [false] when [obs] runs out first. *)
Fixpoint status_loop (obs : list (option Solution)) : list WsEvent * bool :=
  match obs with
  | [] => ([], false)
  | None :: _ => ([WsSend WsNotFound], true)
  | Some solution :: rest =>
      if is_terminal (sol_status solution) then ([WsSend (WsSnapshot solution)], true)
      else let '(evs, closed) := status_loop rest in (WsSleep (1 # 10) :: evs, closed)
  end.

(** [solution_status]: the first element of [obs] is the state at the
    initial [if solution_id in active_solutions] check. *)
Definition solution_status (obs : list (option Solution)) : list WsEvent * bool :=
  match obs with
  | [] => ([], false)
  | None :: _ => ([WsSend WsNotFound], true)
  | Some solution :: rest =>
      let '(evs, closed) := status_loop rest in
      (WsSend (WsSnapshot solution) :: evs, closed)
  end.

Definition done_a : Solution :=
  set_completed 0 "sorted" 40 (fresh_solution (req_a "print(1)") 0).

(** ** judge_client.py: [SolutionRunnerClient._poll_solution_status] *)

(** One [requests.get(.../solutions/{id})]: a JSON body, or an exception
    from [requests.get], [raise_for_status] or [json]. *)
Inductive PollResponse :=
| PollOk (result : SolutionResult)
| PollRaised (msg : string).

Inductive ClientEvent :=
| CGet                     (** [requests.get] *)
| CSleep (seconds : Q)     (** [time.sleep(poll_interval)] *)
| CDelete.                 (** [requests.delete], its exceptions ignored *)

(** The dict returned by [_poll_solution_status]. *)
Inductive PollOutcome :=
| PollRemote (result : SolutionResult)
| PollError (solution_id error : string)
| PollTimeout (solution_id error : string).

(** Python's [min(a, b)]. *)
Definition py_min (a b : Q) : Q := if qltb b a then b else a.

(** The [while time.time() - start_time < timeout_sec + 5] loop.  [now] is
    the clock at the loop test; each element of [env] is the response of one
    GET and the time spent besides the sleep before the next loop test.
    [None]: [env] ran out before the loop ended. *)
Fixpoint poll_loop (solution_id : string) (timeout_sec : Z)
    (start_time now poll_interval : Q) (env : list (Q * PollResponse))
    : option (list ClientEvent * PollOutcome) :=
  if qltb (now - start_time) (inject_Z timeout_sec + 5) then
    match env with
    | [] => None
    | (duration, PollRaised msg) :: _ => Some ([CGet], PollError solution_id msg)
    | (duration, PollOk result) :: env' =>
        if bool_decide (sr_status result = Some "completed") ||
           bool_decide (sr_status result = Some "error")
        then Some ([CGet], PollRemote result)
        else
          let poll_interval' := py_min (poll_interval * (3 # 2)) 2 in
          match poll_loop solution_id timeout_sec start_time
                  (now + duration + poll_interval') poll_interval' env' with
          | None => None
          | Some (evs, out) => Some (CGet :: CSleep poll_interval' :: evs, out)
          end
    end
  else
    Some ([CDelete],
          PollTimeout solution_id
            ("Solution execution timed out after " ++ pretty timeout_sec ++ " seconds")).

(** [_poll_solution_status(solution_id, timeout_sec)], started at
    [start_time] with [poll_interval = 0.5]. *)
Definition poll_solution_status (solution_id : string) (timeout_sec : Z)
    (start_time : Q) (env : list (Q * PollResponse))
    : option (list ClientEvent * PollOutcome) :=
  poll_loop solution_id timeout_sec start_time start_time (1 # 2) env.

Definition running_result : SolutionResult :=
  mkSolutionResult (Some "running") None None None None.

Definition score_sum (sw : list (Q * Q)) : Q :=
  fold_right (fun p acc => fst p * snd p + acc) 0 sw.

Definition weight_sum (sw : list (Q * Q)) : Q :=
  fold_right (fun p acc => snd p + acc) 0 sw.

(** ** Further code of judge.py, api/solutions.py and judge_client.py *)

(** [Judge._get_language_for_category] *)
Definition category_languages : gmap string string :=
  <["coding" := "python"]> (<["data_analysis" := "python"]>
    (<["writing" := "markdown"]> (<["decision_making" := "json"]> ∅))).

Definition get_language_for_category (category : string) : string :=
  default "python" (category_languages !! category).

(** [Judge._load_task_specs]: each YAML file either yields a [TaskSpec]
    ([inr]) or raises while loading ([inl]: logged and skipped); a spec is
    stored under its [task_id]. *)
Fixpoint load_task_specs_loop (spec_files : list (res TaskSpec))
    (task_specs : gmap string TaskSpec) : gmap string TaskSpec :=
  match spec_files with
  | [] => task_specs
  | inl _ :: rest => load_task_specs_loop rest task_specs
  | inr spec :: rest => load_task_specs_loop rest (<[task_id spec := spec]> task_specs)
  end.

Definition load_task_specs (spec_files : list (res TaskSpec)) : gmap string TaskSpec :=
  load_task_specs_loop spec_files ∅.

(** The last file, in glob order, that loaded a spec with the given id. *)
Definition last_loaded (spec_files : list (res TaskSpec)) (id : string) : option TaskSpec :=
  last (omap (fun r => match r with
                       | inr spec => if bool_decide (task_id spec = id) then Some spec else None
                       | inl _ => None
                       end) spec_files).

(** The reply of [POST /solutions] of api/solutions.py ([submit_solution]):
    [ValueError] becomes HTTP 400.  [evaluate_solution] raises nothing else
    in this model, so its HTTP 500 branch is not reached. *)
Inductive HttpReply :=
| Http200 (result : JudgeResult)
| HttpError (status_code : Z) (detail : string).

Definition submit_solution (task_specs : gmap string TaskSpec)
    (episode_id task_id : string) (solution_result : option SolutionResult)
    (elapsed_ms : Q) : HttpReply :=
  match evaluate_solution task_specs episode_id task_id solution_result elapsed_ms with
  | inl e => HttpError 400 e
  | inr r => Http200 r
  end.

(** The JSON the solution runner sends for a record of [active_solutions]
    (the keys the judge reads). *)
Definition solution_json (s : Solution) : SolutionResult :=
  mkSolutionResult (Some (sol_status s)) (sol_exit_code s) (sol_logs s)
    (sol_execution_time_ms s) (sol_error s).

Definition ws_message_json (m : WsMessage) : SolutionResult :=
  match m with
  | WsSnapshot s => solution_json s
  | WsNotFound => mkSolutionResult (Some "not_found") None None None None
  end.

Definition submit_response_json (r : SubmitResponse) : SolutionResult :=
  mkSolutionResult (Some (resp_status r)) None None None None.

(** [SolutionRunnerClient.get_solution_result]: the first message of the
    websocket stream ([websocket.recv()] once), or [None] when no message
    arrives. *)
Fixpoint first_message (evs : list WsEvent) : option WsMessage :=
  match evs with
  | [] => None
  | WsSend m :: _ => Some m
  | WsSleep _ :: rest => first_message rest
  end.

Definition get_solution_result (evs : list WsEvent) : option SolutionResult :=
  option_map ws_message_json (first_message evs).

(** [SolutionRunnerClient.run_solution]: the reply of the POST, or the
    exception it raised. *)
Inductive PostResponse :=
| PostOk (result : SolutionResult)
| PostRaised (msg : string).

Definition client_run_solution (solution_id : string) (time_limit_sec : Z)
    (post : PostResponse) (start_time : Q) (env : list (Q * PollResponse))
    : option (list ClientEvent * PollOutcome) :=
  match post with
  | PostRaised msg => Some ([], PollError solution_id msg)
  | PostOk result =>
      if bool_decide (sr_status result = Some "running")
      then poll_solution_status solution_id time_limit_sec start_time env
      else Some ([], PollRemote result)
  end.

(** A record of [active_solutions] as the writes of the runner leave it. *)
Definition wf_solution (s : Solution) : Prop :=
  (sol_status s = "running" /\ sol_exit_code s = None /\ sol_logs s = None /\
   sol_execution_time_ms s = None /\ sol_error s = None) \/
  (sol_status s = "completed" /\ sol_exit_code s <> None /\ sol_logs s <> None /\
   sol_execution_time_ms s <> None) \/
  (sol_status s = "error" /\ sol_error s <> None).

Definition runner_reachable (st : Runner) : Prop :=
  rtc runner_step (mkRunner ∅ []) st.

Definition ws_sends (evs : list WsEvent) : nat :=
  length (List.filter (fun e => match e with WsSend _ => true | _ => false end) evs).

Definition client_gets (evs : list ClientEvent) : nat :=
  length (List.filter (fun e => match e with CGet => true | _ => false end) evs).

(** The rubric items [_score_rubric_item] routes to its correctness branch. *)
Definition correctness_strategy (d : string) : bool :=
  contains "correct" (lower d) || contains "output" (lower d).


(** The feedback items the rubric loop appends, one per scored item. *)
Fixpoint feedback_of (items : list RubricItem) (scores : list Q) : list Feedback :=
  match items, scores with
  | it :: items', s :: scores' =>
      mkFeedback "judge" s (generate_feedback it s) (description it) :: feedback_of items' scores'
  | _, _ => []
  end.


Definition effect_writes (effs : list Effect) : nat :=
  length (List.filter (fun e => match e with EWrite _ => true | _ => false end) effs).

Definition effect_removes (effs : list Effect) : nat :=
  length (List.filter (fun e => match e with ERemove => true | _ => false end) effs).


(** A message after which [solution_status] returns: a terminal snapshot or
    [not_found]. *)
Definition ws_final (m : WsMessage) : bool :=
  match m with
  | WsNotFound => true
  | WsSnapshot s => is_terminal (sol_status s)
  end.

Definition sleep_in (lo hi : Q) (e : ClientEvent) : Prop :=
  match e with
  | CSleep q => lo <= q <= hi
  | _ => True
  end.

(** Client polling runs: the run completes on the third GET; the run
    never completes within [timeout_sec + 5]. *)
Definition poll_env_done : list (Q * PollResponse) :=
  [(0, PollOk running_result); (1, PollOk running_result);
   (0, PollOk (mkSolutionResult (Some "completed") (Some 0%Z) (Some "ok") (Some 40) None))].

Definition poll_env_slow : list (Q * PollResponse) :=
  [(1, PollOk running_result); (1, PollOk running_result);
   (2, PollOk running_result); (2, PollOk running_result)].

(** * Proofs *)

(** ** Rubric scoring engine *)

Lemma weighted_mean_unfold sw : weighted_mean sw = score_sum sw / weight_sum sw.
Proof. reflexivity. Qed.

Lemma score_rubric_item_total item logs exit_code metrics spec q :
  metrics !! metric spec = Some (MFloat q) ->
  exists s, score_rubric_item item logs exit_code metrics spec = inr s.
Proof.
  intros Hm. unfold score_rubric_item.
  destruct (_ || _); [destruct (negb _); eauto|].
  destruct (_ || _); [|destruct (_ || _); eauto].
  unfold get_runtime. rewrite Hm. simpl. eauto.
Qed.

Lemma rubric_loop_sums spec logs exit_code metrics items :
  (forall it, In it items -> exists s, score_rubric_item it logs exit_code metrics spec = inr s) ->
  forall ts tw fb, exists ss a b f,
    Forall2 (fun it s => score_rubric_item it logs exit_code metrics spec = inr s) items ss /\
    rubric_loop spec logs exit_code metrics items ts tw fb = inr (a, b, f) /\
    a == ts + score_sum (combine ss (map weight items)) /\
    b == tw + weight_sum (combine ss (map weight items)).
Proof.
  induction items as [|it items IH]; intros Hall ts tw fb.
  - exists [], ts, tw, fb. simpl. repeat split; [constructor | ring | ring].
  - destruct (Hall it (or_introl eq_refl)) as [s Hs].
    destruct (IH (fun x Hx => Hall x (or_intror Hx))
                 (ts + s * weight it) (tw + weight it)
                 (app fb [mkFeedback "judge" s (generate_feedback it s) (description it)]))
      as (ss & a & b & f & HF & Hl & Ha & Hb).
    exists (s :: ss), a, b, f. simpl. rewrite Hs. simpl.
    repeat split.
    + constructor; assumption.
    + exact Hl.
    + rewrite Ha. unfold score_sum. simpl. ring.
    + rewrite Hb. unfold weight_sum. simpl. ring.
Qed.

Lemma weight_sum_nonneg items ss :
  Forall (fun it => 0 < weight it) items ->
  0 <= weight_sum (combine ss (map weight items)).
Proof.
  revert ss. induction items as [|it items IH]; intros ss Hpos.
  - destruct ss; simpl; apply Qle_refl.
  - inversion Hpos as [|? ? Hit Hrest]; subst.
    destruct ss as [|s ss]; simpl; [apply Qle_refl|].
    unfold weight_sum in *. simpl.
    specialize (IH ss Hrest).
    apply Qlt_le_weak in Hit. 
    apply (Qle_trans _ (0 + 0)); [apply Qle_refl|].
    apply Qplus_le_compat; assumption.
Qed.

Lemma Qdiv_zero_den x y : y == 0 -> x / y == 0.
Proof.
  intros Hy. unfold Qdiv. rewrite Hy. apply Qmult_0_r.
Qed.

Lemma outcome_metrics_runtime spec sr elapsed_ms :
  outcome_metrics spec sr elapsed_ms !! metric spec
  = Some (MFloat (default elapsed_ms (sr_execution_time_ms sr))).
Proof. unfold outcome_metrics. apply lookup_insert_eq. Qed.

(** C1: on a [completed] outcome with positive rubric weights, the score is
    the weighted mean [Σ(item_score_i × weight_i) / Σ(weight_i)] of the item
    scores (the per-item results of [_score_rubric_item]) and [success] is
    [score >= 0.6]. *)
Theorem evaluate_solution_weighted_mean task_specs episode_id tid spec sr elapsed_ms :
  task_specs !! tid = Some spec ->
  Forall (fun it => 0 < weight it) (rubric spec) ->
  sr_status sr = Some "completed" ->
  exists r item_scores,
    evaluate_solution task_specs episode_id tid (Some sr) elapsed_ms = inr r /\
    Forall2 (fun it s => score_rubric_item it (outcome_logs sr) (outcome_exit_code sr)
                           (outcome_metrics spec sr elapsed_ms) spec = inr s)
            (rubric spec) item_scores /\
    jr_score r == weighted_mean (combine item_scores (map weight (rubric spec))) /\
    jr_success r = Qle_bool (6 # 10) (jr_score r).
Proof.
  intros Hspec Hpos Hst.
  destruct (rubric_loop_sums spec (outcome_logs sr) (outcome_exit_code sr)
              (outcome_metrics spec sr elapsed_ms) (rubric spec)
              (fun it _ => score_rubric_item_total it _ _ _ spec _
                             (outcome_metrics_runtime spec sr elapsed_ms))
              0 0 []) as (ss & a & b & f & HF & Hl & Ha & Hb).
  unfold evaluate_solution. rewrite Hspec. unfold evaluate_try_body. rewrite Hst.
  rewrite !bool_decide_false by discriminate. simpl orb. cbv iota.
  unfold evaluate_rubric. rewrite Hl. simpl.
  eexists _, ss. split; [reflexivity|]. split; [exact HF|]. simpl.
  split; [|reflexivity].
  rewrite weighted_mean_unfold.
  destruct (qltb 0 b) eqn:Hlt.
  - rewrite Ha, Hb. apply Qdiv_comp; ring.
  - unfold qltb in Hlt. apply negb_false_iff, Qle_bool_iff in Hlt.
    pose proof (weight_sum_nonneg (rubric spec) ss Hpos) as Hnn.
    assert (Hw : weight_sum (combine ss (map weight (rubric spec))) == 0).
    { apply Qle_antisym; [|exact Hnn].
      apply (Qle_trans _ b); [|exact Hlt]. rewrite Hb. apply Qle_lteq. right. ring. }
    rewrite (Qdiv_zero_den _ _ Hw). reflexivity.
Qed.

(** Scenario A of the spec: exit code 0, success marker, 50 ms. *)
Example scenario_A :
  option_map jr_success (match evaluate_solution sample_specs "ep" "sorting_001"
     (Some (completed 0 "sorted: [1, 2]" 50)) 0 with inr r => Some r | _ => None end)
  = Some true.
Proof. vm_compute. reflexivity. Qed.

(** Scenario B of the spec: exit code 1, 700 ms: [0.6·0 + 0.4·0.4 = 0.16]. *)
Example scenario_B :
  option_map (fun r => (Qred (jr_score r), jr_success r))
    (match evaluate_solution sample_specs "ep" "sorting_001"
             (Some (completed 1 "" 700)) 0 with inr r => Some r | inl _ => None end)
  = Some (4 # 25, false).
Proof. vm_compute. reflexivity. Qed.

Example aggregate_0_6_succeeds :
  option_map (fun r => (Qred (jr_score r), jr_success r))
    (match evaluate_solution (<["t" := spec_with_rubric rubric_0_6]> ∅) "ep" "t"
             (Some (completed 0 "sorted" 50)) 0 with inr r => Some r | inl _ => None end)
  = Some (3 # 5, true).
Proof. vm_compute. reflexivity. Qed.

Example aggregate_0_5999_fails :
  option_map (fun r => (Qred (jr_score r), jr_success r))
    (match evaluate_solution (<["t" := spec_with_rubric rubric_0_5999]> ∅) "ep" "t"
             (Some (completed 0 "sorted" 50)) 0 with inr r => Some r | inl _ => None end)
  = Some (5999 # 10000, false).
Proof. vm_compute. reflexivity. Qed.

Lemma evaluate_solution_weighted_mean_witness :
  ((<["t" := spec_with_rubric rubric_0_6]> ∅ : gmap string TaskSpec) !! "t"
     = Some (spec_with_rubric rubric_0_6) /\
   Forall (fun it => 0 < weight it) (rubric (spec_with_rubric rubric_0_6)) /\
   sr_status (completed 0 "sorted" 50) = Some "completed") /\
  exists r item_scores,
    evaluate_solution (<["t" := spec_with_rubric rubric_0_6]> ∅) "ep" "t"
      (Some (completed 0 "sorted" 50)) 0 = inr r /\
    Forall2 (fun it s => score_rubric_item it (outcome_logs (completed 0 "sorted" 50))
                           (outcome_exit_code (completed 0 "sorted" 50))
                           (outcome_metrics (spec_with_rubric rubric_0_6)
                              (completed 0 "sorted" 50) 0)
                           (spec_with_rubric rubric_0_6) = inr s)
            (rubric (spec_with_rubric rubric_0_6)) item_scores /\
    jr_score r == weighted_mean (combine item_scores
                                   (map weight (rubric (spec_with_rubric rubric_0_6)))) /\
    jr_success r = Qle_bool (6 # 10) (jr_score r).
Proof.
  assert (H1 : (<["t" := spec_with_rubric rubric_0_6]> ∅ : gmap string TaskSpec) !! "t"
                 = Some (spec_with_rubric rubric_0_6)) by reflexivity.
  assert (H2 : Forall (fun it => 0 < weight it) (rubric (spec_with_rubric rubric_0_6))).
  { repeat constructor. }
  assert (H3 : sr_status (completed 0 "sorted" 50) = Some "completed") by reflexivity.
  split; [split; [exact H1 | split; [exact H2 | exact H3]]|].
  apply (evaluate_solution_weighted_mean _ "ep" "t" _ _ 0 H1 H2 H3).
Defined.

Lemma qltb_true a b : a < b -> qltb a b = true.
Proof.
  intros H. unfold qltb. apply negb_true_iff, not_true_iff_false.
  rewrite Qle_bool_iff. apply Qlt_not_le. exact H.
Qed.

Lemma qltb_false a b : b <= a -> qltb a b = false.
Proof.
  intros H. unfold qltb. apply negb_false_iff, Qle_bool_iff. exact H.
Qed.

(** C2: an [error] or [timeout] outcome short-circuits to
    [success=false, score=0.0, metrics={error: msg}] with the single feedback
    item [{judge, 0.0, "Execution error: msg", execution}]; the rubric plays
    no part in the result. *)
Theorem evaluate_solution_error_short_circuit task_specs episode_id tid spec sr elapsed_ms :
  task_specs !! tid = Some spec ->
  sr_status sr = Some "error" \/ sr_status sr = Some "timeout" ->
  evaluate_solution task_specs episode_id tid (Some sr) elapsed_ms =
    inr (mkJudgeResult episode_id tid false 0
           (<["error" := MStr (default "Unknown error" (sr_error sr))]> ∅)
           [mkFeedback "judge" 0
              ("Execution error: " ++ default "Unknown error" (sr_error sr))
              "execution"]).
Proof.
  intros Hspec Hst.
  unfold evaluate_solution. rewrite Hspec. unfold evaluate_try_body.
  destruct Hst as [Hst|Hst]; rewrite Hst; reflexivity.
Qed.

Lemma evaluate_solution_error_short_circuit_witness :
  ((<["t" := spec_with_rubric rubric_0_6]> ∅ : gmap string TaskSpec) !! "t"
     = Some (spec_with_rubric rubric_0_6) /\
   (Some "timeout" = Some "error" \/ Some "timeout" = Some "timeout")) /\
  evaluate_solution (<["t" := spec_with_rubric rubric_0_6]> ∅) "ep" "t"
    (Some (mkSolutionResult (Some "timeout") None None None (Some "timed out"))) 0 =
    inr (mkJudgeResult "ep" "t" false 0
           (<["error" := MStr (default "Unknown error" (Some "timed out"))]> ∅)
           [mkFeedback "judge" 0
              ("Execution error: " ++ default "Unknown error" (Some "timed out"))
              "execution"]).
Proof.
  assert (H1 : (<["t" := spec_with_rubric rubric_0_6]> ∅ : gmap string TaskSpec) !! "t"
                 = Some (spec_with_rubric rubric_0_6)) by reflexivity.
  assert (H2 : sr_status (mkSolutionResult (Some "timeout") None None None (Some "timed out"))
               = Some "error" \/
               sr_status (mkSolutionResult (Some "timeout") None None None (Some "timed out"))
               = Some "timeout") by (right; reflexivity).
  split; [split; [exact H1 | right; reflexivity]|].
  exact (evaluate_solution_error_short_circuit _ "ep" "t" _ _ 0 H1 H2).
Defined.

(** C9: a rubric item routed to the performance strategy scores by the
    runtime alone: [< 100ms -> 1.0], [< 500ms -> 0.7], [< 1000ms -> 0.4],
    otherwise [0.1], and [0.1] when no runtime is recorded under
    [spec.metric]. *)
Theorem performance_item_buckets item logs exit_code metrics spec :
  performance_strategy (description item) = true ->
  (forall s, metrics !! metric spec <> Some (MStr s)) ->
  exists score,
    score_rubric_item item logs exit_code metrics spec = inr score /\
    (metrics !! metric spec = None -> score = 1 # 10) /\
    (forall ms, (metrics !! metric spec = Some (MFloat ms) \/
                 exists z, metrics !! metric spec = Some (MInt z) /\ ms = inject_Z z) ->
       (ms < 100 -> score = 1) /\
       (100 <= ms -> ms < 500 -> score = 7 # 10) /\
       (500 <= ms -> ms < 1000 -> score = 4 # 10) /\
       (1000 <= ms -> score = 1 # 10)).
Proof.
  intros Hroute Hnum. unfold performance_strategy in Hroute.
  apply andb_true_iff in Hroute as [Hnc Hp]. apply negb_true_iff in Hnc.
  unfold score_rubric_item. rewrite Hnc, Hp.
  assert (Hbuckets : forall ms,
    (ms < 100 -> performance_score (RFin ms) = 1) /\
    (100 <= ms -> ms < 500 -> performance_score (RFin ms) = 7 # 10) /\
    (500 <= ms -> ms < 1000 -> performance_score (RFin ms) = 4 # 10) /\
    (1000 <= ms -> performance_score (RFin ms) = 1 # 10)).
  { intros ms. unfold performance_score.
    repeat split; intros;
      repeat first [ rewrite qltb_true by assumption
                   | rewrite qltb_false by (eapply Qle_trans; [|eassumption]; discriminate)
                   | rewrite qltb_false by assumption ];
      reflexivity. }
  unfold get_runtime.
  destruct (metrics !! metric spec) as [[z|q|s]|] eqn:Hm.
  - eexists. split; [reflexivity|]. split; [discriminate|].
    intros ms [H|[z' [H Hz]]]; [discriminate|]. injection H as <-. subst ms.
    apply Hbuckets.
  - eexists. split; [reflexivity|]. split; [discriminate|].
    intros ms [H|[z' [H Hz]]]; [|discriminate]. injection H as <-.
    apply Hbuckets.
  - exfalso. exact (Hnum s eq_refl).
  - eexists. split; [reflexivity|]. split; [reflexivity|].
    intros ms [H|[z' [H Hz]]]; discriminate.
Qed.

Lemma performance_item_buckets_witness :
  (performance_strategy (description (mkRubricItem "Performance" (4 # 10))) = true /\
   (forall s, outcome_metrics (spec_with_rubric []) (completed 1 "" 700) 0
                !! metric (spec_with_rubric []) <> Some (MStr s))) /\
  exists score,
    score_rubric_item (mkRubricItem "Performance" (4 # 10)) "" 1
      (outcome_metrics (spec_with_rubric []) (completed 1 "" 700) 0)
      (spec_with_rubric []) = inr score /\
    (outcome_metrics (spec_with_rubric []) (completed 1 "" 700) 0
       !! metric (spec_with_rubric []) = None -> score = 1 # 10) /\
    (forall ms, (outcome_metrics (spec_with_rubric []) (completed 1 "" 700) 0
                   !! metric (spec_with_rubric []) = Some (MFloat ms) \/
                 exists z, outcome_metrics (spec_with_rubric []) (completed 1 "" 700) 0
                   !! metric (spec_with_rubric []) = Some (MInt z) /\ ms = inject_Z z) ->
       (ms < 100 -> score = 1) /\
       (100 <= ms -> ms < 500 -> score = 7 # 10) /\
       (500 <= ms -> ms < 1000 -> score = 4 # 10) /\
       (1000 <= ms -> score = 1 # 10)).
Proof.
  assert (H1 : performance_strategy (description (mkRubricItem "Performance" (4 # 10))) = true)
    by reflexivity.
  assert (H2 : forall s, outcome_metrics (spec_with_rubric []) (completed 1 "" 700) 0
                !! metric (spec_with_rubric []) <> Some (MStr s)).
  { intros s. rewrite outcome_metrics_runtime. discriminate. }
  split; [split; [exact H1 | exact H2]|].
  exact (performance_item_buckets _ "" 1 _ _ H1 H2).
Defined.

Lemma rubric_loop_weight_sum items ss (R : RubricItem -> Q -> Prop) :
  Forall2 R items ss ->
  weight_sum (combine ss (map weight items)) = rubric_weight items.
Proof.
  induction 1 as [|it s items ss _ _ IH]; [reflexivity|].
  unfold weight_sum, rubric_weight in *. simpl. rewrite IH. reflexivity.
Qed.

(** C10: when the rubric weights sum to [0] (in particular for an empty
    rubric), scoring a [completed] outcome raises nothing: the score is [0.0]
    and [success] is false. *)
Theorem evaluate_solution_zero_weight task_specs episode_id tid spec sr elapsed_ms :
  task_specs !! tid = Some spec ->
  sr_status sr = Some "completed" ->
  rubric_weight (rubric spec) == 0 ->
  exists r,
    evaluate_solution task_specs episode_id tid (Some sr) elapsed_ms = inr r /\
    jr_score r = 0 /\ jr_success r = false.
Proof.
  intros Hspec Hst Hw.
  destruct (rubric_loop_sums spec (outcome_logs sr) (outcome_exit_code sr)
              (outcome_metrics spec sr elapsed_ms) (rubric spec)
              (fun it _ => score_rubric_item_total it _ _ _ spec _
                             (outcome_metrics_runtime spec sr elapsed_ms))
              0 0 []) as (ss & a & b & f & HF & Hl & Ha & Hb).
  rewrite (rubric_loop_weight_sum _ _ _ HF), Hw in Hb.
  unfold evaluate_solution. rewrite Hspec. unfold evaluate_try_body. rewrite Hst.
  rewrite !bool_decide_false by discriminate. simpl orb. cbv iota.
  unfold evaluate_rubric. rewrite Hl. simpl.
  rewrite (qltb_false 0 b) by (rewrite Hb; apply Qle_lteq; right; ring).
  eexists. split; [reflexivity|]. split; reflexivity.
Qed.

Lemma evaluate_solution_zero_weight_witness :
  ((<["t" := spec_with_rubric []]> ∅ : gmap string TaskSpec) !! "t"
     = Some (spec_with_rubric []) /\
   sr_status (completed 0 "sorted" 50) = Some "completed" /\
   rubric_weight (rubric (spec_with_rubric [])) == 0) /\
  exists r,
    evaluate_solution (<["t" := spec_with_rubric []]> ∅) "ep" "t"
      (Some (completed 0 "sorted" 50)) 0 = inr r /\
    jr_score r = 0 /\ jr_success r = false.
Proof.
  assert (H1 : (<["t" := spec_with_rubric []]> ∅ : gmap string TaskSpec) !! "t"
                 = Some (spec_with_rubric [])) by reflexivity.
  assert (H2 : sr_status (completed 0 "sorted" 50) = Some "completed") by reflexivity.
  assert (H3 : rubric_weight (rubric (spec_with_rubric [])) == 0) by reflexivity.
  split; [split; [exact H1 | split; [exact H2 | exact H3]]|].
  exact (evaluate_solution_zero_weight _ "ep" "t" _ _ 0 H1 H2 H3).
Defined.

(** ** Submission tracker *)

(** C3 (counterexample): a second submission of a tracked id is accepted
    too, and it replaces the tracked record. *)
Lemma run_solution_duplicate_accepted :
  resp_status (snd (run_solution trace_s0 (req_a "print(1)") 0)) = "accepted" /\
  resp_status (snd (run_solution trace_s1 (req_a "print(2)") 1)) = "accepted" /\
  active_solutions trace_s1 !! "a" <> None /\
  active_solutions trace_s2 !! "a" <> active_solutions trace_s1 !! "a".
Proof. vm_compute. repeat split; congruence. Qed.

(** C3 (amended): [run_solution] never refuses an id: it replies [accepted],
    stores a fresh [running] record under the id (replacing any tracked one)
    and schedules one more task; two submissions with the same id are both
    accepted and leave one record, the later one. *)
Theorem run_solution_replaces_tracked st r1 r2 t1 t2 :
  req_solution_id r2 = req_solution_id r1 ->
  snd (run_solution st r1 t1) = mkSubmitResponse "accepted" (req_solution_id r1) /\
  active_solutions (fst (run_solution st r1 t1))
    = <[req_solution_id r1 := fresh_solution r1 t1]> (active_solutions st) /\
  pending (fst (run_solution st r1 t1)) = app (pending st) [req_solution_id r1] /\
  snd (run_solution (fst (run_solution st r1 t1)) r2 t2)
    = mkSubmitResponse "accepted" (req_solution_id r2) /\
  active_solutions (fst (run_solution (fst (run_solution st r1 t1)) r2 t2))
    = <[req_solution_id r1 := fresh_solution r2 t2]> (active_solutions st).
Proof.
  intros Hid. unfold run_solution. simpl. rewrite Hid.
  repeat split. apply insert_insert_eq.
Qed.

Lemma run_solution_replaces_tracked_witness :
  req_solution_id (req_a "print(2)") = req_solution_id (req_a "print(1)") /\
  snd (run_solution trace_s0 (req_a "print(1)") 0)
    = mkSubmitResponse "accepted" (req_solution_id (req_a "print(1)")) /\
  active_solutions (fst (run_solution trace_s0 (req_a "print(1)") 0))
    = <[req_solution_id (req_a "print(1)") := fresh_solution (req_a "print(1)") 0]>
        (active_solutions trace_s0) /\
  pending (fst (run_solution trace_s0 (req_a "print(1)") 0))
    = app (pending trace_s0) [req_solution_id (req_a "print(1)")] /\
  snd (run_solution (fst (run_solution trace_s0 (req_a "print(1)") 0)) (req_a "print(2)") 1)
    = mkSubmitResponse "accepted" (req_solution_id (req_a "print(2)")) /\
  active_solutions (fst (run_solution (fst (run_solution trace_s0 (req_a "print(1)") 0))
                          (req_a "print(2)") 1))
    = <[req_solution_id (req_a "print(1)") := fresh_solution (req_a "print(2)") 1]>
        (active_solutions trace_s0).
Proof.
  assert (H : req_solution_id (req_a "print(2)") = req_solution_id (req_a "print(1)"))
    by reflexivity.
  split; [exact H|].
  exact (run_solution_replaces_tracked trace_s0 _ _ 0 1 H).
Defined.

Lemma execute_solution_other_ids solution_id d store j :
  j <> solution_id -> fst (execute_solution solution_id d store) !! j = store !! j.
Proof.
  intros Hj. unfold execute_solution.
  destruct (store !! solution_id) as [solution|]; [|reflexivity].
  destruct d as [msg|w l now]; simpl.
  - apply lookup_insert_ne. congruence.
  - destruct w as [code|msg]; [destruct l as [logs|msg]|]; simpl;
      apply lookup_insert_ne; congruence.
Qed.

Lemma execute_solution_writes_terminal solution_id d store solution :
  store !! solution_id = Some solution ->
  exists r', fst (execute_solution solution_id d store) !! solution_id = Some r' /\
             is_terminal (sol_status r') = true.
Proof.
  intros Hs. unfold execute_solution. rewrite Hs.
  destruct d as [msg|w l now]; simpl;
    [|destruct w as [code|msg]; [destruct l as [logs|msg]|]; simpl];
    (eexists; split; [apply lookup_insert_eq | reflexivity]).
Qed.

(** C4 (counterexample): after two submissions of ["a"], the first task
    records [completed]; the second task then overwrites that terminal
    record with [error]. *)
Lemma terminal_record_overwritten :
  runner_step trace_s0 trace_s1 /\ runner_step trace_s1 trace_s2 /\
  runner_step trace_s2 trace_s3 /\ runner_step trace_s3 trace_s4 /\
  exists r, active_solutions trace_s3 !! "a" = Some r /\
            sol_status r = "completed" /\
            active_solutions trace_s4 !! "a" <> Some r /\
            option_map sol_status (active_solutions trace_s4 !! "a") = Some "error".
Proof.
  split; [apply step_submit|]. split; [apply step_submit|].
  split; [apply step_execute; reflexivity|].
  split; [apply step_execute; reflexivity|].
  eexists. split; [reflexivity|]. vm_compute. repeat split; congruence.
Qed.

(** C4 (amended): the store does not guard terminal records.  A step that
    changes the terminal record of an id is either a re-submission of that id
    (which stores a fresh [running] record) or an execution task scheduled for
    that id (which writes another terminal record). *)
Theorem terminal_record_writers st st' id r :
  runner_step st st' ->
  active_solutions st !! id = Some r ->
  is_terminal (sol_status r) = true ->
  active_solutions st' !! id <> Some r ->
  (exists request now, req_solution_id request = id /\
     st' = fst (run_solution st request now) /\
     active_solutions st' !! id = Some (fresh_solution request now)) \/
  (exists i d, pending st !! i = Some id /\
     st' = mkRunner (fst (execute_solution id d (active_solutions st))) (delete i (pending st)) /\
     exists r', active_solutions st' !! id = Some r' /\ is_terminal (sol_status r') = true).
Proof.
  intros Hstep Hr Hterm Hchanged.
  destruct Hstep as [st request now | st i solution_id d Hi].
  - destruct (decide (req_solution_id request = id)) as [<-|Hne].
    + left. exists request, now. split; [reflexivity|]. split; [reflexivity|].
      simpl. apply lookup_insert_eq.
    + exfalso. apply Hchanged. simpl. rewrite lookup_insert_ne by exact Hne. exact Hr.
  - destruct (decide (solution_id = id)) as [<-|Hne].
    + right. exists i, d. split; [exact Hi|]. split; [reflexivity|].
      simpl. exact (execute_solution_writes_terminal _ d _ _ Hr).
    + exfalso. apply Hchanged. simpl.
      rewrite execute_solution_other_ids by congruence. exact Hr.
Qed.

Lemma terminal_record_writers_witness :
  (runner_step trace_s3 trace_s4 /\
   active_solutions trace_s3 !! "a"
     = Some (set_completed 0 "1" 1000 (fresh_solution (req_a "print(2)") 1)) /\
   is_terminal (sol_status (set_completed 0 "1" 1000 (fresh_solution (req_a "print(2)") 1)))
     = true /\
   active_solutions trace_s4 !! "a"
     <> Some (set_completed 0 "1" 1000 (fresh_solution (req_a "print(2)") 1))) /\
  ((exists request now, req_solution_id request = "a" /\
     trace_s4 = fst (run_solution trace_s3 request now) /\
     active_solutions trace_s4 !! "a" = Some (fresh_solution request now)) \/
   (exists i d, pending trace_s3 !! i = Some "a" /\
     trace_s4 = mkRunner (fst (execute_solution "a" d (active_solutions trace_s3)))
                         (delete i (pending trace_s3)) /\
     exists r', active_solutions trace_s4 !! "a" = Some r' /\
                is_terminal (sol_status r') = true)).
Proof.
  assert (H1 : runner_step trace_s3 trace_s4) by (apply step_execute; reflexivity).
  assert (H2 : active_solutions trace_s3 !! "a"
     = Some (set_completed 0 "1" 1000 (fresh_solution (req_a "print(2)") 1)))
    by (vm_compute; reflexivity).
  assert (H3 : is_terminal (sol_status (set_completed 0 "1" 1000
                  (fresh_solution (req_a "print(2)") 1))) = true) by reflexivity.
  assert (H4 : active_solutions trace_s4 !! "a"
     <> Some (set_completed 0 "1" 1000 (fresh_solution (req_a "print(2)") 1)))
    by (vm_compute; congruence).
  split; [split; [exact H1 | split; [exact H2 | split; [exact H3 | exact H4]]]|].
  exact (terminal_record_writers _ _ "a" _ H1 H2 H3 H4).
Defined.

(** ** Sandbox manager *)

(** C5 (counterexample): when [container.wait] times out, the record is
    [error] with the exception's message, not [timeout] with
    ["execution timed out"]. *)
Lemma execute_solution_timeout_recorded_as_error :
  let st := fst (execute_solution "a"
                   (RunStarted (WaitRaised "Read timed out. (read timeout=10)") (LogsOk "") 10)
                   (<["a" := fresh_solution (req_a "while True: pass") 0]> ∅)) in
  option_map sol_status (st !! "a") = Some "error" /\
  option_map sol_error (st !! "a") = Some (Some "Read timed out. (read timeout=10)") /\
  ~ (option_map sol_status (st !! "a") = Some "timeout" /\
     option_map sol_error (st !! "a") = Some (Some "execution timed out")).
Proof.
  vm_compute. split; [reflexivity|]. split; [reflexivity|].
  intros [H _]. discriminate H.
Qed.

(** C5 (amended): when waiting for the container raises (its timeout
    included), [execute_solution] records [{status: error, error: str(e)}]
    and then force-removes the container. *)
Theorem execute_solution_wait_raises solution_id store solution msg l now :
  store !! solution_id = Some solution ->
  execute_solution solution_id (RunStarted (WaitRaised msg) l now) store =
    (<[solution_id := set_error msg solution]> store,
     [ECreate; EWait; EWrite "error"; ERemove]).
Proof. intros Hs. unfold execute_solution. rewrite Hs. reflexivity. Qed.

Lemma execute_solution_wait_raises_witness :
  (<["a" := fresh_solution (req_a "while True: pass") 0]> ∅ : gmap string Solution) !! "a"
    = Some (fresh_solution (req_a "while True: pass") 0) /\
  execute_solution "a" (RunStarted (WaitRaised "Read timed out.") (LogsOk "") 10)
    (<["a" := fresh_solution (req_a "while True: pass") 0]> ∅) =
    (<["a" := set_error "Read timed out." (fresh_solution (req_a "while True: pass") 0)]>
       (<["a" := fresh_solution (req_a "while True: pass") 0]> ∅),
     [ECreate; EWait; EWrite "error"; ERemove]).
Proof.
  assert (H : (<["a" := fresh_solution (req_a "while True: pass") 0]> ∅
                 : gmap string Solution) !! "a"
              = Some (fresh_solution (req_a "while True: pass") 0)) by reflexivity.
  split; [exact H|].
  exact (execute_solution_wait_raises _ _ _ "Read timed out." (LogsOk "") 10 H).
Defined.

(** ** Result delivery channel *)

(** C6 (counterexample): subscribing to an already completed submission
    sends its snapshot twice before closing. *)
Lemma solution_status_terminal_sends_twice :
  solution_status [Some done_a; Some done_a]
    = ([WsSend (WsSnapshot done_a); WsSend (WsSnapshot done_a)], true) /\
  length (fst (solution_status [Some done_a; Some done_a])) <> 1%nat.
Proof. split; [reflexivity | discriminate]. Qed.

(** C6 (amended): an already terminal submission gets its snapshot, then
    (at the loop's first check, without sleeping) its terminal snapshot again,
    and the stream closes; an unknown id gets one [not_found] and the stream
    closes; a non-terminal submission gets its current snapshot, then one
    0.1 s sleep per non-terminal re-check and the terminal snapshot once it
    is terminal, and the stream closes. *)
Theorem solution_status_behaviour :
  (forall s s' rest,
     is_terminal (sol_status s) = true -> is_terminal (sol_status s') = true ->
     solution_status (Some s :: Some s' :: rest)
       = ([WsSend (WsSnapshot s); WsSend (WsSnapshot s')], true)) /\
  (forall rest, solution_status (None :: rest) = ([WsSend WsNotFound], true)) /\
  (forall s mids t rest,
     is_terminal (sol_status s) = false ->
     Forall (fun m => is_terminal (sol_status m) = false) mids ->
     is_terminal (sol_status t) = true ->
     solution_status (Some s :: map Some mids ++ Some t :: rest)
       = (WsSend (WsSnapshot s) :: app (repeat (WsSleep (1 # 10)) (length mids))
                                       [WsSend (WsSnapshot t)], true)).
Proof.
  split; [|split].
  - intros s s' rest _ Ht'. simpl. rewrite Ht'. reflexivity.
  - reflexivity.
  - intros s mids t rest _ Hmids Ht. simpl.
    assert (Hloop : status_loop (map Some mids ++ Some t :: rest)
                    = (app (repeat (WsSleep (1 # 10)) (length mids))
                           [WsSend (WsSnapshot t)], true)).
    { induction Hmids as [|m mids Hm _ IH]; simpl.
      - rewrite Ht. reflexivity.
      - rewrite Hm, IH. reflexivity. }
    rewrite Hloop. reflexivity.
Qed.

(** ** Judge orchestrator: polling *)

(** C7: with a 10 s limit and a remote that stays [running] (each GET
    instantaneous), the client sleeps 0.75 s, 1.125 s, 1.6875 s, then 2 s,
    ...; after the deadline of 15 s it sends the DELETE and returns its own
    timeout.  The first gap between polls is 0.75 s, not 0.5 s. *)
Theorem poll_intervals_start_at_750ms :
  poll_solution_status "a" 10 0 (repeat (0, PollOk running_result) 20) =
    Some ([CGet; CSleep (3 # 4); CGet; CSleep (9 # 8); CGet; CSleep (27 # 16);
           CGet; CSleep 2; CGet; CSleep 2; CGet; CSleep 2; CGet; CSleep 2;
           CGet; CSleep 2; CGet; CSleep 2; CDelete],
          PollTimeout "a" "Solution execution timed out after 10 seconds") /\
  hd_error (List.filter (fun e => match e with CSleep _ => true | _ => false end)
              (default [] (option_map fst
                 (poll_solution_status "a" 10 0 (repeat (0, PollOk running_result) 20)))))
    <> Some (CSleep (1 # 2)).
Proof. vm_compute. split; [reflexivity | congruence]. Qed.

(** C8 (counterexample): a failed GET at the very first poll, 15 s before
    the deadline, ends the wait with an error at once. *)
Lemma poll_first_failure_not_retried :
  poll_solution_status "a" 10 0
    [(0, PollRaised "Connection refused"); (0, PollOk (completed 0 "sorted" 50))]
  = Some ([CGet], PollError "a" "Connection refused").
Proof. vm_compute. reflexivity. Qed.

(** C8 (amended): a transport failure during the wait is not retried: the
    poll returns [{status: error, error: str(e)}] at once, without a DELETE. *)
Theorem poll_failure_returns_error solution_id timeout_sec start_time now poll_interval
    duration msg env :
  now - start_time < inject_Z timeout_sec + 5 ->
  poll_loop solution_id timeout_sec start_time now poll_interval
    ((duration, PollRaised msg) :: env)
  = Some ([CGet], PollError solution_id msg).
Proof.
  intros Hlt. simpl. rewrite qltb_true by exact Hlt. reflexivity.
Qed.

Lemma poll_failure_returns_error_witness :
  (0 - 0 < inject_Z 10 + 5) /\
  poll_loop "a" 10 0 0 (1 # 2) ((0, PollRaised "Connection refused") :: [])
  = Some ([CGet], PollError "a" "Connection refused").
Proof.
  assert (H : 0 - 0 < inject_Z 10 + 5) by reflexivity.
  split; [exact H|].
  exact (poll_failure_returns_error "a" 10 0 0 (1 # 2) 0 "Connection refused" [] H).
Defined.

(** * Further properties of the code *)

Ltac qnum := unfold Qle, Qlt; simpl; lia.

Lemma rubric_loop_inv spec logs exit_code metrics items :
  forall ts tw fb a b f,
    rubric_loop spec logs exit_code metrics items ts tw fb = inr (a, b, f) ->
    exists ss,
      Forall2 (fun it s => score_rubric_item it logs exit_code metrics spec = inr s) items ss /\
      a == ts + score_sum (combine ss (map weight items)) /\
      b == tw + weight_sum (combine ss (map weight items)) /\
      f = app fb (feedback_of items ss).
Proof.
  induction items as [|it items IH]; intros ts tw fb a b f H; simpl in H.
  - injection H as <- <- <-. exists [].
    split; [constructor|]. split; [unfold score_sum; simpl; ring|].
    split; [unfold weight_sum; simpl; ring|].
    simpl. symmetry. apply app_nil_r.
  - destruct (score_rubric_item it logs exit_code metrics spec) as [e|s] eqn:Hs;
      simpl in H; [discriminate|].
    destruct (IH _ _ _ _ _ _ H) as (ss & HF & Ha & Hb & Hf).
    exists (s :: ss). split; [constructor; assumption|].
    split; [rewrite Ha; unfold score_sum; simpl; ring|].
    split; [rewrite Hb; unfold weight_sum; simpl; ring|].
    rewrite Hf, <- app_assoc. reflexivity.
Qed.

(** Every item score returned by [_score_rubric_item] lies in [[0, 1]]. *)
Theorem score_rubric_item_range item logs exit_code metrics spec s :
  score_rubric_item item logs exit_code metrics spec = inr s -> 0 <= s /\ s <= 1.
Proof.
  unfold score_rubric_item.
  destruct (_ || _).
  { destruct (negb _); [|destruct (contains _ _)]; intros H; injection H as <-;
      split; qnum. }
  destruct (_ || _).
  { unfold get_runtime. destruct (metrics !! metric spec) as [[z|q|t]|];
      simpl; intros H; try discriminate; injection H as <-;
      unfold performance_score;
      repeat match goal with |- context [if ?c then _ else _] => destruct c end;
      split; qnum. }
  destruct (_ || _); [destruct (negb _)|]; intros H; injection H as <-; split; qnum.
Qed.

Lemma score_rubric_item_range_witness :
  score_rubric_item (mkRubricItem "Performance" (4 # 10)) "x" 0
    (<["runtime_ms" := MFloat 700]> ∅) sample_spec = inr (4 # 10) /\
  (0 <= 4 # 10 /\ 4 # 10 <= 1).
Proof.
  assert (H : score_rubric_item (mkRubricItem "Performance" (4 # 10)) "x" 0
                (<["runtime_ms" := MFloat 700]> ∅) sample_spec = inr (4 # 10))
    by (vm_compute; reflexivity).
  split; [exact H|].
  exact (score_rubric_item_range _ _ _ _ _ _ H).
Defined.


Lemma score_sum_bounds items ss (R : RubricItem -> Q -> Prop) :
  Forall2 (fun it s => 0 <= s /\ s <= 1) items ss ->
  Forall (fun it => 0 <= weight it) items ->
  0 <= score_sum (combine ss (map weight items)) /\
  score_sum (combine ss (map weight items)) <= weight_sum (combine ss (map weight items)).
Proof.
  induction 1 as [|it s items ss [Hs0 Hs1] _ IH]; intros Hw.
  - split; apply Qle_refl.
  - inversion Hw as [|? ? Hwit Hrest]; subst.
    destruct (IH Hrest) as [IH0 IH1].
    unfold score_sum, weight_sum in *. simpl.
    split.
    + apply (Qle_trans _ (0 + 0)); [apply Qle_refl|].
      apply Qplus_le_compat; [apply Qmult_le_0_compat|]; assumption.
    + apply Qplus_le_compat; [|exact IH1].
      apply (Qle_trans _ (1 * weight it)); [|apply Qle_lteq; right; ring].
      apply Qmult_le_compat_r; assumption.
Qed.

(** With non-negative rubric weights, the aggregate score returned by
    [_evaluate_solution] lies in [[0, 1]]. *)
Theorem evaluate_rubric_score_range spec logs exit_code metrics success score feedback :
  Forall (fun it => 0 <= weight it) (rubric spec) ->
  evaluate_rubric spec logs exit_code metrics = inr (success, score, feedback) ->
  0 <= score /\ score <= 1.
Proof.
  intros Hw H. unfold evaluate_rubric in H.
  destruct (rubric_loop spec logs exit_code metrics (rubric spec) 0 0 [])
    as [e|[[a b] f]] eqn:Hl; simpl in H; [discriminate|].
  injection H as _ <- _.
  destruct (rubric_loop_inv _ _ _ _ _ _ _ _ _ _ _ Hl) as (ss & HF & Ha & Hb & _).
  assert (HF' : Forall2 (fun it s => 0 <= s /\ s <= 1) (rubric spec) ss).
  { eapply Forall2_impl; [exact HF|]. intros it s Hs.
    exact (score_rubric_item_range _ _ _ _ _ _ Hs). }
  destruct (score_sum_bounds _ _ (fun _ _ => True) HF' Hw) as [H0 H1].
  destruct (qltb 0 b) eqn:Hlt.
  - unfold qltb in Hlt. apply negb_true_iff, not_true_iff_false in Hlt.
    rewrite Qle_bool_iff in Hlt. apply Qnot_le_lt in Hlt.
    split.
    + apply Qle_shift_div_l; [exact Hlt|]. rewrite Qmult_0_l, Ha.
      apply (Qle_trans _ (score_sum (combine ss (map weight (rubric spec)))));
        [exact H0 | apply Qle_lteq; right; ring].
    + apply Qle_shift_div_r; [exact Hlt|]. rewrite Qmult_1_l, Ha, Hb.
      apply (Qle_trans _ (score_sum (combine ss (map weight (rubric spec)))));
        [apply Qle_lteq; right; ring|].
      apply (Qle_trans _ (weight_sum (combine ss (map weight (rubric spec)))));
        [exact H1 | apply Qle_lteq; right; ring].
  - split; qnum.
Qed.

Lemma evaluate_rubric_score_range_witness :
  (Forall (fun it => 0 <= weight it) (rubric sample_spec) /\
   evaluate_rubric sample_spec "" 1 (<["runtime_ms" := MFloat 700]> ∅)
     = inr (false, 16000 # 100000, feedback_of (rubric sample_spec) [0; 4 # 10])) /\
  0 <= 16000 # 100000 /\ 16000 # 100000 <= 1.
Proof.
  assert (H1 : Forall (fun it => 0 <= weight it) (rubric sample_spec))
    by (repeat constructor; qnum).
  assert (H2 : evaluate_rubric sample_spec "" 1 (<["runtime_ms" := MFloat 700]> ∅)
     = inr (false, 16000 # 100000, feedback_of (rubric sample_spec) [0; 4 # 10]))
    by (vm_compute; reflexivity).
  split; [split; [exact H1 | exact H2]|].
  exact (evaluate_rubric_score_range _ _ _ _ _ _ _ H1 H2).
Defined.

Lemma feedback_of_props (R : RubricItem -> Q -> Prop) items ss :
  Forall2 R items ss ->
  map fb_rubric_section (feedback_of items ss) = map description items /\
  Forall2 (fun it f => fb_source f = "judge" /\ R it (fb_rating f) /\
                       fb_rationale f = generate_feedback it (fb_rating f))
          items (feedback_of items ss).
Proof.
  induction 1 as [|it s items ss Hs _ [IH1 IH2]]; simpl.
  - split; [reflexivity | constructor].
  - rewrite IH1. split; [reflexivity|]. constructor; [|exact IH2].
    simpl. split; [reflexivity|]. split; [exact Hs | reflexivity].
Qed.

Lemma evaluate_rubric_inv spec logs exit_code metrics success score feedback :
  evaluate_rubric spec logs exit_code metrics = inr (success, score, feedback) ->
  exists ss,
    Forall2 (fun it s => score_rubric_item it logs exit_code metrics spec = inr s)
            (rubric spec) ss /\
    feedback = feedback_of (rubric spec) ss /\
    success = Qle_bool (6 # 10) score.
Proof.
  intros H. unfold evaluate_rubric in H.
  destruct (rubric_loop spec logs exit_code metrics (rubric spec) 0 0 [])
    as [e|[[a b] f]] eqn:Hl; simpl in H; [discriminate|].
  injection H as <- <- <-.
  destruct (rubric_loop_inv _ _ _ _ _ _ _ _ _ _ _ Hl) as (ss & HF & _ & _ & Hf).
  exists ss. split; [exact HF|]. split; [exact Hf | reflexivity].
Qed.

(** [_evaluate_solution] returns one feedback item per rubric item, in rubric
    order: its section is the item's description, its source ["judge"], its
    rating the item's score and its rationale the templated text for that
    score. *)
Theorem evaluate_rubric_feedback spec logs exit_code metrics success score feedback :
  evaluate_rubric spec logs exit_code metrics = inr (success, score, feedback) ->
  map fb_rubric_section feedback = map description (rubric spec) /\
  Forall2 (fun it f => fb_source f = "judge" /\
                       score_rubric_item it logs exit_code metrics spec = inr (fb_rating f) /\
                       fb_rationale f = generate_feedback it (fb_rating f))
          (rubric spec) feedback.
Proof.
  intros H. destruct (evaluate_rubric_inv _ _ _ _ _ _ _ H) as (ss & HF & -> & _).
  exact (feedback_of_props _ _ _ HF).
Qed.

Lemma evaluate_rubric_feedback_witness :
  evaluate_rubric sample_spec "" 1 (<["runtime_ms" := MFloat 700]> ∅)
    = inr (false, 16000 # 100000, feedback_of (rubric sample_spec) [0; 4 # 10]) /\
  map fb_rubric_section (feedback_of (rubric sample_spec) [0; 4 # 10])
    = map description (rubric sample_spec) /\
  Forall2 (fun it f => fb_source f = "judge" /\
             score_rubric_item it "" 1 (<["runtime_ms" := MFloat 700]> ∅) sample_spec
               = inr (fb_rating f) /\
             fb_rationale f = generate_feedback it (fb_rating f))
          (rubric sample_spec) (feedback_of (rubric sample_spec) [0; 4 # 10]).
Proof.
  assert (H : evaluate_rubric sample_spec "" 1 (<["runtime_ms" := MFloat 700]> ∅)
    = inr (false, 16000 # 100000, feedback_of (rubric sample_spec) [0; 4 # 10]))
    by (vm_compute; reflexivity).
  split; [exact H|].
  exact (evaluate_rubric_feedback _ _ _ _ _ _ _ H).
Defined.

Lemma evaluate_try_body_result spec episode_id tid solution_result elapsed_ms r :
  evaluate_try_body spec episode_id tid solution_result elapsed_ms = inr r ->
  jr_episode_id r = episode_id /\ jr_task_id r = tid /\
  (jr_success r = true <-> 6 # 10 <= jr_score r).
Proof.
  unfold evaluate_try_body. destruct solution_result as [sr|]; [|discriminate].
  destruct (_ || _).
  - intros H. injection H as <-. simpl. split; [reflexivity|]. split; [reflexivity|].
    split; [discriminate|]. intros Hle. exfalso. revert Hle. qnum.
  - destruct (evaluate_rubric spec (outcome_logs sr) (outcome_exit_code sr)
                (outcome_metrics spec sr elapsed_ms)) as [e|[[success score] fb]] eqn:He;
      simpl; [discriminate|].
    intros H. injection H as <-. simpl.
    destruct (evaluate_rubric_inv _ _ _ _ _ _ _ He) as (_ & _ & _ & ->).
    split; [reflexivity|]. split; [reflexivity|]. apply Qle_bool_iff.
Qed.

(** Every result of [Judge.evaluate_solution], the error results included,
    has [success = true] exactly when [score >= 0.6]. *)
Theorem evaluate_solution_success_iff_threshold task_specs episode_id tid
    solution_result elapsed_ms r :
  evaluate_solution task_specs episode_id tid solution_result elapsed_ms = inr r ->
  (jr_success r = true <-> 6 # 10 <= jr_score r).
Proof.
  unfold evaluate_solution. destruct (task_specs !! tid) as [spec|]; [|discriminate].
  destruct (evaluate_try_body spec episode_id tid solution_result elapsed_ms) as [e|r'] eqn:Hb.
  - intros H. injection H as <-. simpl. split; [discriminate|].
    intros Hle. exfalso. revert Hle. qnum.
  - intros H. injection H as <-. exact (proj2 (proj2 (evaluate_try_body_result _ _ _ _ _ _ Hb))).
Qed.

Lemma evaluate_solution_success_iff_threshold_witness :
  exists r,
    evaluate_solution sample_specs "ep" "sorting_001" (Some (completed 0 "sorted" 50)) 0
      = inr r /\
    (jr_success r = true <-> 6 # 10 <= jr_score r).
Proof.
  destruct (evaluate_solution sample_specs "ep" "sorting_001"
              (Some (completed 0 "sorted" 50)) 0) as [e|r] eqn:H;
    [vm_compute in H; discriminate|].
  exists r. split; [reflexivity|].
  exact (evaluate_solution_success_iff_threshold _ _ _ _ _ _ H).
Defined.

(** [POST /solutions] of api/solutions.py answers HTTP 400 with the
    [ValueError] message exactly for an unregistered task id; for a
    registered one it answers 200 with a result for that episode and task,
    whatever the runner returned. *)
Theorem submit_solution_status task_specs episode_id tid solution_result elapsed_ms :
  (task_specs !! tid = None ->
   submit_solution task_specs episode_id tid solution_result elapsed_ms
   = HttpError 400 ("Task specification not found for task_id: " ++ tid)) /\
  (forall spec, task_specs !! tid = Some spec ->
   exists r, submit_solution task_specs episode_id tid solution_result elapsed_ms = Http200 r /\
             jr_episode_id r = episode_id /\ jr_task_id r = tid).
Proof.
  unfold submit_solution, evaluate_solution. split.
  - intros H. rewrite H. reflexivity.
  - intros spec H. rewrite H.
    destruct (evaluate_try_body spec episode_id tid solution_result elapsed_ms) as [e|r] eqn:Hb.
    + eexists. split; [reflexivity|]. split; reflexivity.
    + exists r. split; [reflexivity|].
      destruct (evaluate_try_body_result _ _ _ _ _ _ Hb) as (H1 & H2 & _). split; assumption.
Qed.

Lemma load_task_specs_loop_lookup spec_files :
  forall (m : gmap string TaskSpec) id,
    load_task_specs_loop spec_files m !! id
    = match last_loaded spec_files id with Some s => Some s | None => m !! id end.
Proof.
  unfold last_loaded.
  induction spec_files as [|[e|spec] rest IH]; intros m id; simpl.
  - reflexivity.
  - apply IH.
  - rewrite IH. case_bool_decide as Hid.
    + rewrite last_cons. subst id. rewrite lookup_insert_eq.
      destruct (last _); reflexivity.
    + rewrite lookup_insert_ne by exact Hid. reflexivity.
Qed.

(** [Judge._load_task_specs] registers, for each task id, the spec of the
    last file that loaded with that id; files that fail to load are
    skipped, and an id no file loaded is absent. *)
Theorem load_task_specs_lookup spec_files id :
  load_task_specs spec_files !! id = last_loaded spec_files id.
Proof.
  unfold load_task_specs. rewrite load_task_specs_loop_lookup.
  destruct (last_loaded spec_files id); reflexivity.
Qed.

(** If the submission is still [running] when the judge subscribes, the
    judge receives that first snapshot and scores it against the rubric as a
    run with exit code [-1]: no error result, and every correctness item
    rates [0]. *)
Theorem running_snapshot_scored_as_failed_run task_specs episode_id tid spec request t rest
    elapsed_ms :
  task_specs !! tid = Some spec ->
  metric spec <> "exit_code" ->
  exists r,
    evaluate_solution task_specs episode_id tid
      (get_solution_result (fst (solution_status (Some (fresh_solution request t) :: rest))))
      elapsed_ms = inr r /\
    jr_metrics r !! "exit_code" = Some (MInt (-1)) /\
    Forall2 (fun it f => correctness_strategy (description it) = true -> fb_rating f = 0)
            (rubric spec) (jr_feedback r).
Proof.
  intros Hspec Hmetric.
  set (sr := mkSolutionResult (Some "running") None None None None).
  assert (Hget : get_solution_result
                   (fst (solution_status (Some (fresh_solution request t) :: rest))) = Some sr).
  { unfold solution_status. destruct (status_loop rest). reflexivity. }
  rewrite Hget.
  destruct (rubric_loop_sums spec (outcome_logs sr) (outcome_exit_code sr)
              (outcome_metrics spec sr elapsed_ms) (rubric spec)
              (fun it _ => score_rubric_item_total it _ _ _ spec _
                             (outcome_metrics_runtime spec sr elapsed_ms))
              0 0 []) as (ss & a & b & f & HF & Hl & _ & _).
  unfold evaluate_solution. rewrite Hspec. unfold evaluate_try_body.
  rewrite !bool_decide_false by discriminate. simpl orb. cbv iota.
  unfold evaluate_rubric. rewrite Hl. simpl.
  eexists. split; [reflexivity|]. simpl. split.
  - unfold outcome_metrics. rewrite lookup_insert_ne by congruence.
    apply lookup_insert_eq.
  - destruct (rubric_loop_inv _ _ _ _ _ _ _ _ _ _ _ Hl) as (ss' & HF' & _ & _ & ->).
    simpl. destruct (feedback_of_props _ _ _ HF') as [_ HP].
    eapply Forall2_impl; [exact HP|]. intros it fb [_ [Hs _]] Hcorr.
    unfold score_rubric_item in Hs. unfold correctness_strategy in Hcorr.
    rewrite Hcorr in Hs. simpl in Hs. injection Hs as <-. reflexivity.
Qed.

Lemma running_snapshot_scored_as_failed_run_witness :
  (sample_specs !! "sorting_001" = Some sample_spec /\ metric sample_spec <> "exit_code") /\
  exists r,
    evaluate_solution sample_specs "ep" "sorting_001"
      (get_solution_result (fst (solution_status
         (Some (fresh_solution (req_a "print(1)") 0) :: []))))
      20 = inr r /\
    jr_metrics r !! "exit_code" = Some (MInt (-1)) /\
    Forall2 (fun it f => correctness_strategy (description it) = true -> fb_rating f = 0)
            (rubric sample_spec) (jr_feedback r).
Proof.
  assert (H1 : sample_specs !! "sorting_001" = Some sample_spec) by reflexivity.
  assert (H2 : metric sample_spec <> "exit_code") by discriminate.
  split; [split; [exact H1 | exact H2]|].
  exact (running_snapshot_scored_as_failed_run _ "ep" _ _ (req_a "print(1)") 0 [] 20 H1 H2).
Defined.

(** ** Runner invariants *)

Lemma reachable_ind (P : Runner -> Prop) :
  P (mkRunner ∅ []) ->
  (forall st st', P st -> runner_step st st' -> P st') ->
  forall st, runner_reachable st -> P st.
Proof.
  intros H0 Hstep st Hr. unfold runner_reachable in Hr.
  revert st Hr. apply rtc_ind_r; [exact H0|].
  intros x y _ Hxy IH. exact (Hstep _ _ IH Hxy).
Qed.

Lemma execute_solution_cases solution_id d store :
  (store !! solution_id = None /\ fst (execute_solution solution_id d store) = store) \/
  exists s s', store !! solution_id = Some s /\
    fst (execute_solution solution_id d store) = <[solution_id := s']> store /\
    ((exists msg, s' = set_error msg s) \/
     (exists code logs ms, s' = set_completed code logs ms s)).
Proof.
  unfold execute_solution.
  destruct (store !! solution_id) as [s|] eqn:Hs; [|left; split; reflexivity].
  right. destruct d as [msg|w l now].
  - exists s, (set_error msg s). split; [reflexivity|]. split; [reflexivity|].
    left. eauto.
  - destruct w as [code|msg]; [destruct l as [logs|msg]|]; simpl;
      eexists s, _; (split; [reflexivity|]); (split; [reflexivity|]); eauto 6.
Qed.

Lemma wf_set_error msg s : wf_solution (set_error msg s).
Proof. right; right. split; [reflexivity | discriminate]. Qed.

Lemma wf_set_completed code logs ms s : wf_solution (set_completed code logs ms s).
Proof. right; left. repeat split; discriminate. Qed.

(** In every state the runner can reach, each record of [active_solutions]
    is in one of three shapes: [running] with no outcome field set,
    [completed] with exit code, logs and execution time set, or [error] with
    an error message.  In particular the runner never stores the status
    [timeout]. *)
Theorem reachable_records_wf st id s :
  runner_reachable st -> active_solutions st !! id = Some s ->
  wf_solution s /\ sol_status s <> "timeout".
Proof.
  intros Hr. revert id s.
  apply (reachable_ind (fun st => forall id s, active_solutions st !! id = Some s ->
                                    wf_solution s /\ sol_status s <> "timeout")); [| |exact Hr].
  - intros id s H. discriminate H.
  - intros st0 st1 IH Hstep id s Hs.
    assert (Hwf : wf_solution s).
    { destruct Hstep as [st0 request now | st0 i sid d Hi]; simpl in Hs.
      - apply lookup_insert_Some in Hs as [[_ <-]|[_ Hs]].
        + left. repeat split.
        + exact (proj1 (IH _ _ Hs)).
      - destruct (execute_solution_cases sid d (active_solutions st0))
          as [[_ He] | (s0 & s' & _ & He & Hs')]; rewrite He in Hs.
        + exact (proj1 (IH _ _ Hs)).
        + apply lookup_insert_Some in Hs as [[_ <-]|[_ Hs]].
          * destruct Hs' as [(msg & ->)|(code & logs & ms & ->)];
              [apply wf_set_error | apply wf_set_completed].
          * exact (proj1 (IH _ _ Hs)). }
    split; [exact Hwf|].
    destruct Hwf as [[-> _]|[[-> _]|[-> _]]]; discriminate.
Qed.

Lemma reachable_trace_s3 : runner_reachable trace_s3.
Proof.
  unfold runner_reachable.
  eapply rtc_l; [apply (step_submit trace_s0 (req_a "print(1)") 0)|].
  eapply rtc_l; [apply (step_submit trace_s1 (req_a "print(2)") 1)|].
  eapply rtc_l; [apply (step_execute trace_s2 0 "a"
                          (RunStarted (WaitExited 0) (LogsOk "1") 2)); reflexivity|].
  apply rtc_refl.
Qed.

Lemma reachable_records_wf_witness :
  (runner_reachable trace_s3 /\
   active_solutions trace_s3 !! "a"
     = Some (set_completed 0 "1" 1000 (fresh_solution (req_a "print(2)") 1))) /\
  wf_solution (set_completed 0 "1" 1000 (fresh_solution (req_a "print(2)") 1)) /\
  sol_status (set_completed 0 "1" 1000 (fresh_solution (req_a "print(2)") 1)) <> "timeout".
Proof.
  assert (H2 : active_solutions trace_s3 !! "a"
     = Some (set_completed 0 "1" 1000 (fresh_solution (req_a "print(2)") 1)))
    by (vm_compute; reflexivity).
  split; [split; [exact reachable_trace_s3 | exact H2]|].
  exact (reachable_records_wf _ "a" _ reachable_trace_s3 H2).
Defined.

Lemma elem_of_delete_other (l : list string) i x y :
  x ∈ l -> l !! i = Some y -> x <> y -> x ∈ delete i l.
Proof.
  revert i. induction l as [|z l IH]; intros i Hx Hi Hne; [inversion Hx|].
  destruct i as [|i]; simpl in *.
  - injection Hi as ->. apply elem_of_cons in Hx as [->|Hx]; [congruence | exact Hx].
  - apply elem_of_cons in Hx as [->|Hx]; apply elem_of_cons; [left; reflexivity|].
    right. exact (IH i Hx Hi Hne).
Qed.

Lemma elem_of_delete_orig (l : list string) i x : x ∈ delete i l -> x ∈ l.
Proof.
  revert i. induction l as [|z l IH]; intros i Hx; [inversion Hx|].
  destruct i as [|i]; simpl in *.
  - apply elem_of_cons. right. exact Hx.
  - apply elem_of_cons in Hx as [->|Hx]; apply elem_of_cons; [left; reflexivity|].
    right. exact (IH i Hx).
Qed.

(** In every reachable state, a [running] record always has an
    [execute_solution] task still pending for its id: no record is left
    running without a task that will finish it. *)
Theorem reachable_running_has_pending_task st id s :
  runner_reachable st -> active_solutions st !! id = Some s ->
  sol_status s = "running" -> id ∈ pending st.
Proof.
  intros Hr. revert id s.
  apply (reachable_ind (fun st => forall id s, active_solutions st !! id = Some s ->
                                    sol_status s = "running" -> id ∈ pending st));
    [| |exact Hr].
  - intros id s H. discriminate H.
  - intros st0 st1 IH Hstep id s Hs Hrun.
    destruct Hstep as [st0 request now | st0 i sid d Hi]; simpl in *.
    + apply elem_of_app.
      apply lookup_insert_Some in Hs as [[<- _]|[_ Hs]].
      * right. apply list_elem_of_singleton. reflexivity.
      * left. exact (IH _ _ Hs Hrun).
    + destruct (execute_solution_cases sid d (active_solutions st0))
        as [[Hnone He] | (s0 & s' & _ & He & Hs')]; rewrite He in Hs.
      * destruct (decide (id = sid)) as [->|Hne].
        -- rewrite Hnone in Hs. discriminate Hs.
        -- exact (elem_of_delete_other _ _ _ _ (IH _ _ Hs Hrun) Hi Hne).
      * apply lookup_insert_Some in Hs as [[<- <-]|[Hne Hs]].
        -- exfalso. destruct Hs' as [(msg & ->)|(code & logs & ms & ->)];
             discriminate Hrun.
        -- exact (elem_of_delete_other _ _ _ _ (IH _ _ Hs Hrun) Hi (not_eq_sym Hne)).
Qed.

Lemma reachable_trace_s2 : runner_reachable trace_s2.
Proof.
  unfold runner_reachable.
  eapply rtc_l; [apply (step_submit trace_s0 (req_a "print(1)") 0)|].
  eapply rtc_l; [apply (step_submit trace_s1 (req_a "print(2)") 1)|].
  apply rtc_refl.
Qed.

Lemma reachable_running_has_pending_task_witness :
  (runner_reachable trace_s2 /\
   active_solutions trace_s2 !! "a" = Some (fresh_solution (req_a "print(2)") 1) /\
   sol_status (fresh_solution (req_a "print(2)") 1) = "running") /\
  "a" ∈ pending trace_s2.
Proof.
  assert (H2 : active_solutions trace_s2 !! "a" = Some (fresh_solution (req_a "print(2)") 1))
    by (vm_compute; reflexivity).
  assert (H3 : sol_status (fresh_solution (req_a "print(2)") 1) = "running")
    by reflexivity.
  split; [split; [exact reachable_trace_s2 | split; [exact H2 | exact H3]]|].
  exact (reachable_running_has_pending_task _ "a" _ reachable_trace_s2 H2 H3).
Defined.

Lemma execute_solution_keeps_keys solution_id d store j :
  store !! j <> None -> fst (execute_solution solution_id d store) !! j <> None.
Proof.
  intros Hj. destruct (decide (j = solution_id)) as [->|Hne].
  - destruct (execute_solution_cases solution_id d store)
      as [[_ He] | (s & s' & _ & He & _)]; rewrite He; [exact Hj|].
    rewrite lookup_insert_eq. discriminate.
  - rewrite execute_solution_other_ids by exact Hne. exact Hj.
Qed.

(** No step of the runner removes a record: once an id has been submitted,
    [active_solutions] keeps an entry for it (there is no eviction). *)
Theorem runner_step_never_removes st st' id :
  runner_step st st' -> active_solutions st !! id <> None ->
  active_solutions st' !! id <> None.
Proof.
  intros Hstep Hid. destruct Hstep as [st request now | st i sid d Hi]; simpl.
  - destruct (decide (req_solution_id request = id)) as [->|Hne].
    + rewrite lookup_insert_eq. discriminate.
    + rewrite lookup_insert_ne by exact Hne. exact Hid.
  - apply execute_solution_keeps_keys. exact Hid.
Qed.

Lemma runner_step_never_removes_witness :
  (runner_step trace_s2 trace_s3 /\ active_solutions trace_s2 !! "a" <> None) /\
  active_solutions trace_s3 !! "a" <> None.
Proof.
  assert (H1 : runner_step trace_s2 trace_s3)
    by (apply (step_execute trace_s2 0 "a"
                 (RunStarted (WaitExited 0) (LogsOk "1") 2)); reflexivity).
  assert (H2 : active_solutions trace_s2 !! "a" <> None)
    by (vm_compute; discriminate).
  split; [split; [exact H1 | exact H2]|].
  exact (runner_step_never_removes _ _ "a" H1 H2).
Defined.

(** In every reachable state, each pending [execute_solution] task finds a
    record under its id: the [KeyError] path of [execute_solution] is never
    taken. *)
Theorem reachable_pending_tracked st id :
  runner_reachable st -> id ∈ pending st -> active_solutions st !! id <> None.
Proof.
  intros Hr. revert id.
  apply (reachable_ind (fun st => forall id, id ∈ pending st ->
                                    active_solutions st !! id <> None)); [| |exact Hr].
  - intros id H. inversion H.
  - intros st0 st1 IH Hstep id Hid.
    destruct Hstep as [st0 request now | st0 i sid d Hi]; simpl in *.
    + apply elem_of_app in Hid as [Hid|Hid].
      * destruct (decide (req_solution_id request = id)) as [->|Hne].
        -- rewrite lookup_insert_eq. discriminate.
        -- rewrite lookup_insert_ne by exact Hne. exact (IH _ Hid).
      * apply list_elem_of_singleton in Hid as ->.
        rewrite lookup_insert_eq. discriminate.
    + apply execute_solution_keeps_keys.
      exact (IH _ (elem_of_delete_orig _ _ _ Hid)).
Qed.

Lemma reachable_pending_tracked_witness :
  (runner_reachable trace_s3 /\ "a" ∈ pending trace_s3) /\
  active_solutions trace_s3 !! "a" <> None.
Proof.
  assert (H2 : "a" ∈ pending trace_s3)
    by (vm_compute; apply list_elem_of_singleton; reflexivity).
  split; [split; [exact reachable_trace_s3 | exact H2]|].
  exact (reachable_pending_tracked _ "a" reachable_trace_s3 H2).
Defined.

(** Every run of [execute_solution] on a tracked id writes the record exactly
    once; a run whose container was started removes it exactly once, as its
    last Docker call; a run whose [containers.run] raised calls no
    [remove]; an untracked id leaves the store unchanged and makes no call. *)
Theorem execute_solution_effects solution_id d store :
  (store !! solution_id = None -> execute_solution solution_id d store = (store, [])) /\
  (forall s, store !! solution_id = Some s ->
     effect_writes (snd (execute_solution solution_id d store)) = 1%nat /\
     (forall w l now, d = RunStarted w l now ->
        last (snd (execute_solution solution_id d store)) = Some ERemove /\
        effect_removes (snd (execute_solution solution_id d store)) = 1%nat) /\
     (forall msg, d = RunRaised msg ->
        effect_removes (snd (execute_solution solution_id d store)) = 0%nat)).
Proof.
  unfold execute_solution. split.
  - intros Hn. rewrite Hn. reflexivity.
  - intros s Hs. rewrite Hs.
    destruct d as [msg|w l now].
    + split; [reflexivity|]. split; [intros w l now' Hd; discriminate Hd|].
      intros msg' _. reflexivity.
    + split; [|split; [|intros msg' Hd; discriminate Hd]].
      * destruct w as [code|msg]; [destruct l as [logs|msg]|]; reflexivity.
      * intros w' l' now' _.
        destruct w as [code|msg]; [destruct l as [logs|msg]|]; split; reflexivity.
Qed.

(** [_get_language_for_category] answers ["markdown"] for [writing],
    ["json"] for [decision_making], and ["python"] for every other category
    (unknown ones included). *)
Theorem get_language_for_category_cases category :
  (category = "writing" /\ get_language_for_category category = "markdown") \/
  (category = "decision_making" /\ get_language_for_category category = "json") \/
  (category <> "writing" /\ category <> "decision_making" /\
   get_language_for_category category = "python").
Proof.
  unfold get_language_for_category, category_languages.
  destruct (decide (category = "writing")) as [->|Hw]; [left; split; reflexivity|].
  destruct (decide (category = "decision_making")) as [->|Hd];
    [right; left; split; reflexivity|].
  right; right. split; [exact Hw|]. split; [exact Hd|].
  destruct (decide (category = "coding")) as [->|Hc]; [reflexivity|].
  destruct (decide (category = "data_analysis")) as [->|Ha]; [reflexivity|].
  rewrite !lookup_insert_ne by congruence. reflexivity.
Qed.

(** ** The websocket stream *)

Lemma status_loop_props obs :
  (ws_sends (fst (status_loop obs)) <= 1)%nat /\
  (snd (status_loop obs) = false -> ws_sends (fst (status_loop obs)) = 0%nat) /\
  (snd (status_loop obs) = true ->
     exists m, last (fst (status_loop obs)) = Some (WsSend m) /\ ws_final m = true).
Proof.
  unfold ws_sends. induction obs as [|o rest IH]; simpl.
  - split; [lia|]. split; [reflexivity|]. intros H; discriminate H.
  - destruct o as [s|].
    + destruct (is_terminal (sol_status s)) eqn:Ht.
      * simpl. split; [lia|]. split; [intros H; discriminate H|].
        intros _. exists (WsSnapshot s). split; [reflexivity|exact Ht].
      * destruct (status_loop rest) as [evs closed]. simpl in *.
        destruct IH as (IH1 & IH2 & IH3).
        split; [exact IH1|]. split; [exact IH2|].
        intros Hc. destruct (IH3 Hc) as (m & Hm & Hf).
        exists m. split; [|exact Hf].
        destruct evs; [discriminate Hm|]. exact Hm.
    + simpl. split; [lia|]. split; [intros H; discriminate H|].
      intros _. exists WsNotFound. split; reflexivity.
Qed.

(** [solution_status] sends at most two messages whatever the store does
    between its checks; when it returns, its last message is a terminal
    snapshot or [not_found]. *)
Theorem solution_status_at_most_two_sends obs :
  (ws_sends (fst (solution_status obs)) <= 2)%nat /\
  (snd (solution_status obs) = true ->
     exists m, last (fst (solution_status obs)) = Some (WsSend m) /\ ws_final m = true).
Proof.
  pose proof (status_loop_props) as Hl. unfold ws_sends in *.
  destruct obs as [|[s|] rest]; simpl.
  - split; [lia|]. intros H; discriminate H.
  - pose proof (Hl rest) as (H1 & _ & H3).
    destruct (status_loop rest) as [evs closed]. simpl in *.
    split; [lia|].
    intros Hc. destruct (H3 Hc) as (m & Hm & Hf).
    exists m. split; [|exact Hf].
    destruct evs; [discriminate Hm|]. exact Hm.
  - split; [lia|]. intros _. exists WsNotFound. split; reflexivity.
Qed.

(** ** The polling loop of the client *)

Lemma qltb_true_inv a b : qltb a b = true -> a < b.
Proof.
  unfold qltb. intros H. apply negb_true_iff in H.
  apply Qnot_le_lt. intros H'. apply Qle_bool_iff in H'. congruence.
Qed.

Lemma qltb_false_inv a b : qltb a b = false -> b <= a.
Proof. unfold qltb. intros H. apply negb_false_iff, Qle_bool_iff in H. exact H. Qed.

Lemma py_min_interval pi :
  1 # 2 <= pi -> pi <= 2 -> 3 # 4 <= py_min (pi * (3 # 2)) 2 <= 2.
Proof.
  intros H1 H2. unfold py_min.
  destruct (qltb 2 (pi * (3 # 2))) eqn:E.
  - split; [qnum | apply Qle_refl].
  - apply qltb_false_inv in E. split; [lra | exact E].
Qed.

Lemma poll_loop_sleeps solution_id timeout_sec start_time env :
  forall now pi evs out, 1 # 2 <= pi -> pi <= 2 ->
  poll_loop solution_id timeout_sec start_time now pi env = Some (evs, out) ->
  Forall (sleep_in (3 # 4) 2) evs.
Proof.
  induction env as [|[duration r] env IH]; intros now pi evs out Hlo Hhi H; simpl in H.
  - destruct (qltb _ _); [discriminate H|].
    injection H as <- _. repeat constructor.
  - destruct (qltb _ _); [|injection H as <- _; repeat constructor].
    destruct r as [result|msg]; [|injection H as <- _; repeat constructor].
    destruct (_ || _); [injection H as <- _; repeat constructor|].
    pose proof (py_min_interval pi Hlo Hhi) as [Hp1 Hp2].
    destruct (poll_loop _ _ _ _ _ env) as [[evs0 out0]|] eqn:Hrec; [|discriminate H].
    injection H as <- _.
    constructor; [exact I|]. constructor; [split; assumption|].
    apply (IH _ _ _ _ (Qle_trans _ _ _ (ltac:(qnum) : 1 # 2 <= 3 # 4) Hp1) Hp2 Hrec).
Qed.

(** Every [time.sleep] of [_poll_solution_status] lasts between 0.75 s and
    2 s: the back-off never sleeps 0.5 s and is capped at 2 s. *)
Theorem poll_sleeps_bounded solution_id timeout_sec start_time env evs out :
  poll_solution_status solution_id timeout_sec start_time env = Some (evs, out) ->
  Forall (sleep_in (3 # 4) 2) evs.
Proof.
  unfold poll_solution_status. apply poll_loop_sleeps; qnum.
Qed.

Lemma poll_loop_outcome solution_id timeout_sec start_time env :
  forall now pi evs out,
  poll_loop solution_id timeout_sec start_time now pi env = Some (evs, out) ->
  (forall r, out = PollRemote r ->
     sr_status r = Some "completed" \/ sr_status r = Some "error") /\
  ((exists msg, out = PollTimeout solution_id msg) <-> In CDelete evs) /\
  (forall i msg, out = PollError i msg \/ out = PollTimeout i msg -> i = solution_id).
Proof.
  induction env as [|[duration r] env IH]; intros now pi evs out H; simpl in H.
  - destruct (qltb _ _); [discriminate H|].
    injection H as <- <-. split; [intros r' Hr; discriminate Hr|].
    split; [split; [intros _; left; reflexivity | intros _; eexists; reflexivity]|].
    intros i msg [Hm|Hm]; first [discriminate Hm | injection Hm; auto].
  - destruct (qltb _ _).
    2:{ injection H as <- <-. split; [intros r' Hr; discriminate Hr|].
        split; [split; [intros _; left; reflexivity | intros _; eexists; reflexivity]|].
        intros i msg [Hm|Hm]; first [discriminate Hm | injection Hm; auto]. }
    destruct r as [result|msg].
    2:{ injection H as <- <-. split; [intros r' Hr; discriminate Hr|].
        split; [split; [intros [m Hm]; discriminate Hm | intros [Hc|[]]; discriminate Hc]|].
        intros i msg' [Hm|Hm]; first [discriminate Hm | injection Hm; auto]. }
    destruct (bool_decide (sr_status result = Some "completed") ||
              bool_decide (sr_status result = Some "error")) eqn:Hst.
    + injection H as <- <-. split.
      * intros r' Hr. injection Hr as <-.
        apply orb_true_iff in Hst as [Hc|He]; apply bool_decide_eq_true in Hc || apply bool_decide_eq_true in He; auto.
      * split; [split; [intros [m Hm]; discriminate Hm | intros [Hc|[]]; discriminate Hc]|].
        intros i msg [Hm|Hm]; discriminate Hm.
    + destruct (poll_loop _ _ _ _ _ env) as [[evs0 out0]|] eqn:Hrec; [|discriminate H].
      injection H as <- <-.
      destruct (IH _ _ _ _ Hrec) as (H1 & H2 & H3).
      split; [exact H1|]. split; [|exact H3].
      rewrite H2. simpl. split; [intros Hd; right; right; exact Hd|].
      intros [Hc|[Hc|Hd]]; [discriminate Hc | discriminate Hc | exact Hd].
Qed.

(** [_poll_solution_status] returns the runner's own dict only when its
    status is [completed] or [error] (a [timeout] or [not_found] body keeps
    it polling); it sends the DELETE exactly when it gives up with its own
    [timeout] result; its [error] and [timeout] dicts carry the polled id. *)
Theorem poll_outcome_shape solution_id timeout_sec start_time env evs out :
  poll_solution_status solution_id timeout_sec start_time env = Some (evs, out) ->
  (forall r, out = PollRemote r ->
     sr_status r = Some "completed" \/ sr_status r = Some "error") /\
  ((exists msg, out = PollTimeout solution_id msg) <-> In CDelete evs) /\
  (forall i msg, out = PollError i msg \/ out = PollTimeout i msg -> i = solution_id).
Proof. apply poll_loop_outcome. Qed.

Lemma inject_nat_S n :
  inject_Z (Z.of_nat (S n)) == inject_Z (Z.of_nat n) + 1.
Proof. rewrite Nat2Z.inj_succ, <- Z.add_1_r, inject_Z_plus. reflexivity. Qed.

Lemma poll_loop_gets solution_id timeout_sec start_time env :
  Forall (fun p => 0 <= fst p) env ->
  forall now pi evs out, 1 # 2 <= pi -> pi <= 2 ->
  poll_loop solution_id timeout_sec start_time now pi env = Some (evs, out) ->
  client_gets evs = 0%nat \/
  (inject_Z (Z.of_nat (client_gets evs)) - 1) * (3 # 4) + (now - start_time)
    < inject_Z timeout_sec + 5.
Proof.
  induction env as [|[duration r] env IH]; intros Henv now pi evs out Hlo Hhi H; simpl in H.
  - destruct (qltb _ _); [discriminate H|].
    injection H as <- _. left. reflexivity.
  - destruct (qltb (now - start_time) (inject_Z timeout_sec + 5)) eqn:Ht.
    2:{ injection H as <- _. left. reflexivity. }
    apply qltb_true_inv in Ht.
    inversion Henv as [|p l Hd Henv']; subst. simpl in Hd.
    destruct r as [result|msg].
    2:{ injection H as <- _. right. unfold client_gets. simpl.
        change (inject_Z (Z.of_nat 1)) with (1 # 1). lra. }
    destruct (_ || _).
    { injection H as <- _. right. unfold client_gets. simpl.
        change (inject_Z (Z.of_nat 1)) with (1 # 1). lra. }
    pose proof (py_min_interval pi Hlo Hhi) as [Hp1 Hp2].
    destruct (poll_loop _ _ _ _ _ env) as [[evs0 out0]|] eqn:Hrec; [|discriminate H].
    injection H as <- _. right.
    assert (Hlo' : 1 # 2 <= py_min (pi * (3 # 2)) 2) by lra.
    destruct (IH Henv' _ _ _ _ Hlo' Hp2 Hrec) as [H0|H0].
    + unfold client_gets in *. simpl. rewrite H0. simpl.
      change (inject_Z (Z.of_nat 1)) with (1 # 1). lra.
    + unfold client_gets in *. simpl. rewrite inject_nat_S. lra.
Qed.

(** With nonnegative request durations, [_poll_solution_status] makes at
    most [1 + 4 (timeout_sec + 5) / 3] GET requests: [n] GETs imply
    [(n - 1) * 0.75 < timeout_sec + 5]. *)
Theorem poll_get_count_bound solution_id timeout_sec start_time env evs out :
  Forall (fun p => 0 <= fst p) env ->
  poll_solution_status solution_id timeout_sec start_time env = Some (evs, out) ->
  client_gets evs = 0%nat \/
  (inject_Z (Z.of_nat (client_gets evs)) - 1) * (3 # 4) < inject_Z timeout_sec + 5.
Proof.
  intros Henv H. unfold poll_solution_status in H.
  assert (Hlo : 1 # 2 <= 1 # 2) by apply Qle_refl.
  assert (Hhi : 1 # 2 <= 2) by qnum.
  destruct (poll_loop_gets _ _ _ _ Henv _ _ _ _ Hlo Hhi H) as [H0|H0];
    [left; exact H0 | right; lra].
Qed.

(** The client's [run_solution] never polls against this runner: the
    runner's reply to the POST has status [accepted], never [running], so the
    client returns that reply (which carries neither exit code, logs nor
    error) at once. *)
Theorem client_run_solution_never_polls solution_id time_limit_sec st request now
    start_time env :
  client_run_solution solution_id time_limit_sec
    (PostOk (submit_response_json (snd (run_solution st request now)))) start_time env
  = Some ([], PollRemote (mkSolutionResult (Some "accepted") None None None None)).
Proof.
  unfold client_run_solution, run_solution, submit_response_json. simpl.
  reflexivity.
Qed.

Lemma poll_sleeps_bounded_witness :
  poll_solution_status "a" 10 0 poll_env_done
    = Some ([CGet; CSleep (3 # 4); CGet; CSleep (9 # 8); CGet],
            PollRemote (mkSolutionResult (Some "completed") (Some 0%Z) (Some "ok") (Some 40) None)) /\
  Forall (sleep_in (3 # 4) 2) [CGet; CSleep (3 # 4); CGet; CSleep (9 # 8); CGet].
Proof.
  assert (H : poll_solution_status "a" 10 0 poll_env_done
    = Some ([CGet; CSleep (3 # 4); CGet; CSleep (9 # 8); CGet],
            PollRemote (mkSolutionResult (Some "completed") (Some 0%Z) (Some "ok") (Some 40) None)))
    by (vm_compute; reflexivity).
  split; [exact H|].
  exact (poll_sleeps_bounded _ _ _ _ _ _ H).
Defined.

Lemma poll_outcome_shape_witness :
  poll_solution_status "a" 1 0 poll_env_slow
    = Some ([CGet; CSleep (3 # 4); CGet; CSleep (9 # 8); CGet; CSleep (27 # 16); CDelete],
            PollTimeout "a" "Solution execution timed out after 1 seconds") /\
  ((exists msg, PollTimeout "a" "Solution execution timed out after 1 seconds"
                  = PollTimeout "a" msg) <->
   In CDelete [CGet; CSleep (3 # 4); CGet; CSleep (9 # 8); CGet; CSleep (27 # 16); CDelete]).
Proof.
  assert (H : poll_solution_status "a" 1 0 poll_env_slow
    = Some ([CGet; CSleep (3 # 4); CGet; CSleep (9 # 8); CGet; CSleep (27 # 16); CDelete],
            PollTimeout "a" "Solution execution timed out after 1 seconds"))
    by (vm_compute; reflexivity).
  split; [exact H|].
  exact (proj1 (proj2 (poll_outcome_shape _ _ _ _ _ _ H))).
Defined.

Lemma poll_get_count_bound_witness :
  (Forall (fun p => 0 <= fst p) poll_env_slow /\
   poll_solution_status "a" 1 0 poll_env_slow
    = Some ([CGet; CSleep (3 # 4); CGet; CSleep (9 # 8); CGet; CSleep (27 # 16); CDelete],
            PollTimeout "a" "Solution execution timed out after 1 seconds")) /\
  (client_gets [CGet; CSleep (3 # 4); CGet; CSleep (9 # 8); CGet; CSleep (27 # 16); CDelete]
     = 0%nat \/
   (inject_Z (Z.of_nat (client_gets [CGet; CSleep (3 # 4); CGet; CSleep (9 # 8); CGet;
                                     CSleep (27 # 16); CDelete])) - 1) * (3 # 4)
     < inject_Z 1 + 5).
Proof.
  assert (H1 : Forall (fun p => 0 <= fst p) poll_env_slow)
    by (unfold poll_env_slow; repeat constructor; simpl; qnum).
  assert (H : poll_solution_status "a" 1 0 poll_env_slow
    = Some ([CGet; CSleep (3 # 4); CGet; CSleep (9 # 8); CGet; CSleep (27 # 16); CDelete],
            PollTimeout "a" "Solution execution timed out after 1 seconds"))
    by (vm_compute; reflexivity).
  split; [split; [exact H1 | exact H]|].
  exact (poll_get_count_bound _ _ _ _ _ _ H1 H).
Defined.
